(* ===== verification/_CoqProject ===== *)
-Q . S2P
Prelude.v
PyNum.v
Geometry.v
Config.v
Random.v
BirdPhysics.v
PipeGen.v
GroundScroll.v
MainGame.v
FbConfig.v
FbPlayer.v
FbPipes.v
FbCollide.v
FbScore.v
FbBackground.v
FbGame.v
FbLiveness.v
