(* ===== verification/Prelude.v ===== *)
(** * A verification library for the Flappy Bird games of sairam-penjarla/flappy-bird-game

    The repository holds two independent Python/pygame programs that
    implement the same arcade game:

    - [src/main.py] ("Flappy Bird"): sprites [Bird], [Pipe] and [Ground]
      kept in pygame sprite groups; a start-screen loop and a main loop,
      each running one iteration per frame; pixel-mask collision through
      [pygame.sprite.groupcollide] with [collide_mask]; a crash ends the
      program.
    - [src/unnamed/part_000] ("flappy bird.py"): the functions
      [welcomeScreen], [mainGame], [isCollide] and [getRandomPipe]; pipes
      are dictionaries in two parallel lists, the collision test is a
      bounding test written out by hand, the score is counted, the gap
      between pipes shrinks over time, and the program returns to the
      welcome screen after a crash ([while True: welcomeScreen();
      mainGame()]).

    How the parts interact.  Each frame the loop of a program drains the
    input events (flap or quit), advances the bird (gravity and flap
    impulse), scrolls the ground or background, recycles the pipe pairs
    (which draws a random number), moves the pipes and tests collisions;
    the test ends the round.  Rendering, the clock and sound playback are
    calls into pygame whose only effect the model keeps is the list of
    sound cues that were started.

    ** Files, in dependency order

    Shared:
    - [Prelude] (this file): the scope [flappy_scope], the hint databases
      [flappy] and [flappy_simpl], the tactics [zsolve], [zmod_solve] and
      [zcst], truncation of half units toward zero ([trunc_half], the C
      cast pygame applies when a float is stored in a [Rect]), integer
      ranges [zrange], and the closure [star] of a step relation with
      [star_invariant].
    - [PyNum]: Python numbers with their type ([PInt] or [PFloat]) and
      CPython's rules for [+], [-], [*], [/], comparisons, [min], [int()]
      and [range()].
    - [Random]: the class [RandomSource] for Python's [random] module
      ([_randbelow] in range), with [randrange] and [randint] as CPython
      writes them, including the [ValueError] of an empty range; every
      client theorem holds for every instance ([lcg] is one instance).

    [src/main.py]:
    - [Geometry]: pygame's [Rect] and [Mask], [Mask.overlap] as a bounded
      search, [collide_mask] and [groupcollide], against the class [Sprite].
    - [Config]: the constants (lines 7-18) and the images as masks
      (class [Assets]).
    - [BirdPhysics] ([Module Bird]): [__init__], [update], [bump], [begin].
    - [PipeGen]: [Module Pipe], [get_random_pipes], the initial group and
      the recycling; [Module Gates], an abstract model that the pipe
      group refines.
    - [GroundScroll]: [Module Ground] and the ground rewrap of both loops.
    - [MainGame]: both loops as a phase machine [Welcome -> Playing ->
      Crashed] (or [Raised e]), one [tick] per frame, the step relation
      [step] and its reachable states.

    [src/unnamed/part_000]:
    - [FbConfig]: constants and the image sizes (class [FbSprites]).
    - [FbPlayer] ([Module Player]): the flap, gravity and the clamped move.
    - [FbPipes]: [getRandomPipe], the two pipe lists (move, spawn, pop) and
      the [gap] schedule.
    - [FbCollide]: [isCollide], with its [TypeError] path.
    - [FbScore]: the score window.
    - [FbBackground]: the two scrolling background copies.
    - [FbGame]: [welcomeScreen], a frame of [mainGame], the outer loop as
      the step relation [fb_step], and its reachable states.
    - [FbLiveness]: a round without input, in closed form frame by frame
      ([quiet_round]), for every random draw.

    ** Numbers

    [src/main.py] stores positions in pygame [Rect]s, which hold C ints:
    a float assigned to [rect.y] is truncated toward zero.  The bird's
    speed is always a multiple of 0.5, so the model keeps twice the speed
    as an integer ([speed2]) and the new position is [trunc_half (2*y +
    speed2)]; this is exact.
    In [src/unnamed/part_000] the numbers are Python ints and floats.
    [PyNum] keeps the type, because the type matters ([range] of a float
    raises).  A float is kept as the exact rational of its value, in
    lowest terms.  This departs from IEEE doubles only by rounding errors
    of about 1e-13.  No comparison the program makes is decided within
    such a distance.  The compared values are multiples of 1/100 (the
    heights, [gap]) or of 1/100 plus 1/3 (the pipe ends), so they differ
    from the thresholds (55, 3.8, 381, 0, the other side's value) by at
    least 1/300 whenever they differ.  The [x] of a pipe is always
    integral (778, 1067.0, 588, steps of -3) and is kept as an integer.

    ** Theorems (the manifest lists each one)

    [src/main.py]:
    - physics: free fall in closed form and its bounds, the flap arc;
    - pipes: the gap of every pair is [PIPE_GAP]; the pipe group refines
      the abstract gates and keeps two ordered pairs;
    - ground: the two tiles always cover the window;
    - collision: mask collision implies rectangle overlap, and ground
      contact is a collision;
    - game: the reachable states keep the invariants, and the phase only
      moves forward.  A player who flaps every frame is never stopped
      (there is no ceiling test).  A player who never flaps crashes at
      frame 22.  A quit raises [NameError] ([sys] is not imported).

    [src/unnamed/part_000]:
    - player: the type of [playery] (int until the first clamp, a float
      for ever after);
    - pipes: the opening of every pair is exactly [offset]; [gap] follows
      [0.09 * min(k, 612)]; the lists never raise for pipes up to 281
      pixels wide; a base 307 pixels high makes [randrange] raise
      [ValueError];
    - collision: the hand-written test is rectangle overlap exactly when
      the bird is as wide as the pipe; its only exception is the
      [TypeError] of [range(playery)];
    - score: a pipe is scored once or twice, and for any image sizes one
      of the three pipe tracks is scored twice;
    - background: the copies are edge to edge, and they cover the window
      iff the image is at least 578 pixels wide;
    - game: the invariant of every reachable state (its only exception is
      that [TypeError]).  A crash returns to the welcome screen.  The
      ground is no obstacle for a player image at least 28 pixels high.
      A concrete run from the start ends in the [TypeError].  A round
      without input ends in frame 205 whatever the random draws.

    ** Bounds and fuel

    There is no fuel: every loop of the programs is a frame, and runs are
    lists of frames ([Nat.iter], [fold_left]).  The concrete runs of the
    witnesses are long enough for their events: 22 frames for the
    [src/main.py] crash, 206 for the [TypeError] run, 205 for the round
    without input (the first pipe needs 204 frames to reach the bird),
    300 and 1000 frames for a pipe to pass the player.

    ** Not modelled

    - Rendering ([blit], [display.update]), the frame clock, asset
      loading, the score digits and the [print] of the score: pure I/O.
    - The pixel content of the images.  Masks ([Assets]) and image sizes
      ([FbSprites]) are parameters, constrained only by the sizes the
      code forces with [pygame.transform.scale].
    - The Mersenne twister of Python's [random]: library code, stated as
      the class [RandomSource].
*)

From Stdlib Require Import ZArith Lia.
From stdpp Require Import base list.

Declare Scope flappy_scope.
Delimit Scope flappy_scope with flappy.
Open Scope Z_scope.

Create HintDb flappy discriminated.
Create Rewrite HintDb flappy_simpl.

(** Python exceptions the modelled code can raise. *)
Inductive PyExc := ValueError | TypeError | IndexError | NameError.

(** ** Truncation toward zero

    pygame's [Rect] setters convert a Python float with a C cast, which
    truncates toward zero.  A value given in half units [v2] (the float is
    [v2 / 2]) is stored as [trunc_half v2]. *)
Definition trunc_half (v2 : Z) : Z := Z.quot v2 2.

Lemma trunc_half_spec v2 :
  v2 = 2 * trunc_half v2 + Z.rem v2 2 /\
  (0 <= v2 -> 0 <= Z.rem v2 2 < 2) /\
  (v2 <= 0 -> -2 < Z.rem v2 2 <= 0).
Proof.
  unfold trunc_half. pose proof (Z.rem_bound_abs v2 2).
  split; [apply Z.quot_rem; lia |]. split; intros.
  - pose proof (Z.rem_nonneg v2 2). lia.
  - pose proof (Z.rem_nonpos v2 2). lia.
Qed.

Lemma trunc_half_nonneg v2 :
  0 <= v2 -> 2 * trunc_half v2 <= v2 < 2 * trunc_half v2 + 2.
Proof. intros. pose proof (trunc_half_spec v2). lia. Qed.

Lemma trunc_half_nonpos v2 :
  v2 <= 0 -> 2 * trunc_half v2 - 2 < v2 <= 2 * trunc_half v2.
Proof. intros. pose proof (trunc_half_spec v2). lia. Qed.

Lemma trunc_half_even z : trunc_half (2 * z) = z.
Proof. unfold trunc_half. rewrite Z.mul_comm. apply Z.quot_mul. lia. Qed.

(** The two bounds together: the truncated value is within one unit of
    the exact half, on the side of zero. *)
Lemma trunc_half_bounds v2 :
  v2 - 2 < 2 * trunc_half v2 < v2 + 2.
Proof.
  destruct (Z.le_gt_cases 0 v2).
  - pose proof (trunc_half_nonneg v2). lia.
  - pose proof (trunc_half_nonpos v2). lia.
Qed.

(** Truncation is monotone. *)
Lemma trunc_half_mono a b : a <= b -> trunc_half a <= trunc_half b.
Proof. intros. unfold trunc_half. apply Z.quot_le_mono; lia. Qed.

(** On the non-negative side, truncation is the floor: an even shift
    comes out of it. *)
Lemma trunc_half_shift y c :
  0 <= 2 * y + c -> trunc_half (2 * y + c) = y + c / 2.
Proof.
  intros H. unfold trunc_half. rewrite Z.quot_div_nonneg by lia.
  rewrite Z.mul_comm, Z.div_add_l by lia. reflexivity.
Qed.

#[export] Hint Rewrite trunc_half_even : flappy_simpl.

(** [zsolve] brings the truncation bounds of every [trunc_half] of the
    goal and the hypotheses into the context and calls [lia]. *)
Ltac zsolve :=
  repeat match goal with
  | |- context [trunc_half ?v] =>
      lazymatch goal with
      | _ : v - 2 < 2 * trunc_half v < v + 2 |- _ => fail
      | _ => pose proof (trunc_half_bounds v)
      end
  | _ : context [trunc_half ?v] |- _ =>
      lazymatch goal with
      | _ : v - 2 < 2 * trunc_half v < v + 2 |- _ => fail
      | _ => pose proof (trunc_half_bounds v)
      end
  end; lia.

(** [lia] here does not see through [mod] by a constant: [zmod_solve]
    adds, for each [a mod m] of the goal and the hypotheses, the
    division equation and the bounds of the remainder, then calls [lia]. *)
Lemma mod_facts a m : 0 < m -> a = m * (a / m) + a mod m /\ 0 <= a mod m < m.
Proof. intros Hm. split; [apply Z.div_mod; lia | apply Z.mod_pos_bound; exact Hm]. Qed.

Ltac zmod_solve :=
  repeat match goal with
  | |- context [?a mod ?m] =>
      lazymatch goal with
      | _ : a = m * (a / m) + a mod m /\ _ |- _ => fail
      | _ => pose proof (mod_facts a m ltac:(lia))
      end
  | _ : context [?a mod ?m] |- _ =>
      lazymatch goal with
      | _ : a = m * (a / m) + a mod m /\ _ |- _ => fail
      | _ => pose proof (mod_facts a m ltac:(lia))
      end
  end; lia.

(** [zcst] folds the closed integer arithmetic of the goal into
    literals ([cbn] leaves [Z.add] of literals alone). *)
Ltac zlit t := lazymatch t with Z0 => idtac | Zpos _ => idtac | Zneg _ => idtac end.
Ltac zcst :=
  repeat match goal with
  | |- context [?op ?a ?b] =>
      zlit a; zlit b;
      lazymatch op with Z.add => idtac | Z.sub => idtac | Z.mul => idtac | Z.div => idtac end;
      let r := eval vm_compute in (op a b) in change (op a b) with r
  | |- context [Z.opp ?a] => zlit a; let r := eval vm_compute in (Z.opp a) in change (Z.opp a) with r
  end.


(** ** Integer ranges: [range(a, b)] *)
Definition zrange (a b : Z) : list Z :=
  map (fun i => a + Z.of_nat i) (seq 0 (Z.to_nat (b - a))).

Lemma in_zrange a b z : In z (zrange a b) <-> a <= z < b.
Proof.
  unfold zrange. rewrite in_map_iff. split.
  - intros [i [<- Hi]]. apply in_seq in Hi. lia.
  - intros H. exists (Z.to_nat (z - a)). rewrite in_seq. lia.
Qed.

(** A boolean search over a range finds exactly the members of the range
    that pass the test. *)
Lemma existsb_zrange (f : Z -> bool) a b :
  existsb f (zrange a b) = true <-> exists z, a <= z < b /\ f z = true.
Proof.
  rewrite existsb_exists. split.
  - intros [z [Hz Hf]]. apply in_zrange in Hz. eauto.
  - intros [z [Hz Hf]]. exists z. rewrite in_zrange. auto.
Qed.

#[export] Hint Resolve <- in_zrange : flappy.

(** [existsb] of two tests that agree everywhere. *)
Lemma existsb_ext {A} (f g : A -> bool) (l : list A) :
  (forall x, f x = g x) -> existsb f l = existsb g l.
Proof. intros E. induction l as [| a l IH]; cbn; [reflexivity | rewrite E, IH; reflexivity]. Qed.

(** ** Runs of a step relation *)
Section Star.
Context {A : Type} (R : A -> A -> Prop).

Inductive star : A -> A -> Prop :=
| star_refl a : star a a
| star_step a b c : R a b -> star b c -> star a c.

Lemma star_one a b : R a b -> star a b.
Proof. eauto using star. Qed.

Lemma star_trans a b c : star a b -> star b c -> star a c.
Proof. induction 1; eauto using star. Qed.

(** The induction principle used for invariants: a property that holds
    at the start and is preserved by every step holds after every run. *)
Lemma star_invariant (P : A -> Prop) a b :
  P a -> (forall x y, P x -> R x y -> P y) -> star a b -> P b.
Proof. intros Ha Hstep Hs. induction Hs; eauto. Qed.
End Star.

Notation "a '⟶*[' R ']' b" := (star R a b)
  (at level 70, format "a  ⟶*[ R ]  b") : flappy_scope.

#[export] Hint Constructors star : flappy.

(** [Nat.iter] unrolled one step from the inside: used for closed forms
    of repeated frames. *)
Lemma iter_succ_inner {A} (f : A -> A) n x :
  Nat.iter (S n) f x = Nat.iter n f (f x).
Proof. induction n; simpl; [reflexivity | now rewrite <- IHn]. Qed.
