(* ===== verification/PyNum.v ===== *)
(** * Python numbers

    [src/unnamed/part_000] mixes Python [int]s and [float]s: the bird's
    height starts as an [int] ([int(SCREENWIDTH / 2)]) and becomes a
    [float] the first time it is clamped against [GROUNDY = SCREENHEIGHT
    * 0.8]; the type later decides whether [range(playery)] raises.  A
    Python number is therefore kept with its type ([PyNum]).  A float is
    kept as the exact rational of its value: every float of the program
    is a short decimal or a ratio of small integers, and the comparisons
    the program makes are never decided within a rounding error (see the
    header of [Prelude]).

    The operations follow CPython: [int op int] is an [int], any other
    mix is a [float] (kept in lowest terms with [Qred], as a float has
    one representation of its value); comparisons are exact across types; [min(a, b)]
    keeps [a] unless [b < a]; [int(x)] truncates toward zero; [range(x)]
    of a float raises [TypeError]. *)

From Stdlib Require Import ZArith QArith Qround Qreduction Lia Lqa.
From stdpp Require Import base.
From S2P Require Import Prelude.
Local Open Scope Q_scope.

Inductive PyNum := PInt (z : Z) | PFloat (q : Q).

(** The numeric value. *)
Definition to_Q (a : PyNum) : Q :=
  match a with PInt z => inject_Z z | PFloat q => q end.

Definition is_int (a : PyNum) : bool :=
  match a with PInt _ => true | PFloat _ => false end.

Definition py_add (a b : PyNum) : PyNum :=
  match a, b with
  | PInt x, PInt y => PInt (x + y)
  | _, _ => PFloat (Qred (to_Q a + to_Q b))
  end.

Definition py_sub (a b : PyNum) : PyNum :=
  match a, b with
  | PInt x, PInt y => PInt (x - y)
  | _, _ => PFloat (Qred (to_Q a - to_Q b))
  end.

Definition py_mul (a b : PyNum) : PyNum :=
  match a, b with
  | PInt x, PInt y => PInt (x * y)
  | _, _ => PFloat (Qred (to_Q a * to_Q b))
  end.

(** [a / b] is always a float. *)
Definition py_truediv (a b : PyNum) : PyNum := PFloat (Qred (to_Q a / to_Q b)).

Definition py_lt (a b : PyNum) : bool := negb (Qle_bool (to_Q b) (to_Q a)).
Definition py_le (a b : PyNum) : bool := Qle_bool (to_Q a) (to_Q b).

(** [min(a, b)]: the builtin replaces its candidate only by a strictly
    smaller item. *)
Definition py_min (a b : PyNum) : PyNum := if py_lt b a then b else a.

(** Truncation toward zero of a rational, as [int()] of a float. *)
Definition Qtrunc (q : Q) : Z :=
  if Qle_bool 0 q then Qfloor q else (- Qfloor (- q))%Z.

Definition py_int (a : PyNum) : Z :=
  match a with PInt z => z | PFloat q => Qtrunc q end.

(** [range(a)]: the integers [0 .. a-1]; a float argument raises. *)
Definition py_range (a : PyNum) : list Z + PyExc :=
  match a with PInt n => inl (zrange 0 n) | PFloat _ => inr TypeError end.

(** ** Lemmas *)

Lemma to_Q_add a b : to_Q (py_add a b) == to_Q a + to_Q b.
Proof.
  destruct a, b; cbn [to_Q py_add]; try apply Qred_correct. rewrite inject_Z_plus. reflexivity.
Qed.

Lemma to_Q_sub a b : to_Q (py_sub a b) == to_Q a - to_Q b.
Proof.
  destruct a, b; cbn [to_Q py_sub]; try apply Qred_correct.
  unfold Z.sub, Qminus. rewrite inject_Z_plus, inject_Z_opp. reflexivity.
Qed.

Lemma to_Q_mul a b : to_Q (py_mul a b) == to_Q a * to_Q b.
Proof.
  destruct a, b; cbn [to_Q py_mul]; try apply Qred_correct. rewrite inject_Z_mult. reflexivity.
Qed.

Lemma to_Q_truediv a b : to_Q (py_truediv a b) == to_Q a / to_Q b.
Proof. apply Qred_correct. Qed.

Lemma is_int_add a b : is_int (py_add a b) = is_int a && is_int b.
Proof. destruct a, b; reflexivity. Qed.

Lemma py_lt_spec a b : py_lt a b = true <-> to_Q a < to_Q b.
Proof.
  unfold py_lt. rewrite negb_true_iff. split.
  - intros H. apply Qnot_le_lt. intros Hle. apply Qle_bool_iff in Hle. congruence.
  - intros H. destruct (Qle_bool (to_Q b) (to_Q a)) eqn:E; [| reflexivity].
    apply Qle_bool_iff in E. exfalso. apply (Qlt_not_le _ _ H E).
Qed.

Lemma py_lt_false a b : py_lt a b = false <-> to_Q b <= to_Q a.
Proof.
  unfold py_lt. rewrite negb_false_iff. apply Qle_bool_iff.
Qed.

Lemma py_le_spec a b : py_le a b = true <-> to_Q a <= to_Q b.
Proof. apply Qle_bool_iff. Qed.

(** [min] is the smaller value, and is one of its arguments. *)
Lemma py_min_spec a b :
  to_Q (py_min a b) <= to_Q a /\ to_Q (py_min a b) <= to_Q b /\
  (py_min a b = a \/ py_min a b = b).
Proof.
  unfold py_min. destruct (py_lt b a) eqn:E.
  - apply py_lt_spec in E. split; [apply Qlt_le_weak; exact E |]. split; [apply Qle_refl | auto].
  - apply py_lt_false in E. split; [apply Qle_refl |]. split; [exact E | auto].
Qed.

Lemma Qtrunc_nonneg q : 0 <= q -> Qtrunc q = Qfloor q.
Proof.
  intros H. unfold Qtrunc. apply Qle_bool_iff in H. rewrite H. reflexivity.
Qed.

(** On a non-negative value, [int()] is the floor: [n <= q < n + 1]. *)
Lemma py_int_floor q :
  0 <= q -> inject_Z (py_int (PFloat q)) <= q < inject_Z (py_int (PFloat q) + 1).
Proof.
  intros H. cbn [py_int]. rewrite Qtrunc_nonneg by exact H.
  split; [apply Qfloor_le | apply Qlt_floor].
Qed.

(** [int()] of a negative float is not positive. *)
Lemma py_int_neg q : q < 0 -> (py_int (PFloat q) <= 0)%Z.
Proof.
  intros H. cbn [py_int]. unfold Qtrunc.
  destruct (Qle_bool 0 q) eqn:E.
  - apply Qle_bool_iff in E. exfalso. apply (Qlt_not_le _ _ H E).
  - assert (Hq : 0 <= - q) by lra.
    pose proof (Qfloor_resp_le 0 (- q) Hq) as Hf.
    change (Qfloor 0) with 0%Z in Hf. lazy beta iota. lia.
Qed.

#[export] Hint Rewrite to_Q_add to_Q_sub to_Q_mul to_Q_truediv : flappy_simpl.

(** [int()] of a non-negative float is at least every integer below it. *)
Lemma py_int_ge q n : 0 <= q -> inject_Z n <= q -> (n <= py_int (PFloat q))%Z.
Proof.
  intros H0 Hn. cbn [py_int]. rewrite Qtrunc_nonneg by exact H0.
  rewrite <- (Qfloor_Z n). apply Qfloor_resp_le. exact Hn.
Qed.
