(* ===== verification/Geometry.v ===== *)
(** * Rectangles, bit masks and sprite collision (pygame)

    The collision code of [src/main.py] (lines 214-215) calls
    [pygame.sprite.groupcollide] with [pygame.sprite.collide_mask].  This
    file models the pieces of pygame those calls rest on:
    - [Rect]: the integer rectangle of a sprite ([image.get_rect()]);
    - [Mask]: the bit mask of an image ([pygame.mask.from_surface]), a
      width, a height and the set bits;
    - [overlap]: [Mask.overlap(other, offset)], which searches the
      intersection of the two masks for a bit set in both;
    - the class [Sprite]: what the collision code needs of a sprite (its
      rect and its mask); [Bird], [Pipe] and [Ground] are instances;
    - [collide_mask] and [groupcollide] over lists of sprites.

    The theorems: the bounded search decides the existential statement
    of an overlap ([overlap_spec]); a mask collision implies that the
    rectangles overlap ([collide_mask_rect]); for opaque images the two
    coincide ([collide_mask_full]). *)

From Stdlib Require Import ZArith Lia.
From stdpp Require Import base list.
From S2P Require Import Prelude.
Open Scope Z_scope.

Record Rect := mkRect { rect_x : Z; rect_y : Z; rect_w : Z; rect_h : Z }.

(** Two non-empty rectangles share at least one pixel (pygame's
    [colliderect]). *)
Definition rect_overlap (a b : Rect) : Prop :=
  0 < rect_w a /\ 0 < rect_h a /\ 0 < rect_w b /\ 0 < rect_h b /\
  rect_x a < rect_x b + rect_w b /\ rect_x b < rect_x a + rect_w a /\
  rect_y a < rect_y b + rect_h b /\ rect_y b < rect_y a + rect_h a.

Record Mask := mkMask { mask_w : Z; mask_h : Z; mask_bit : Z -> Z -> bool }.

(** A bit of the mask: set and inside the mask. *)
Definition mask_get (m : Mask) (x y : Z) : bool :=
  (0 <=? x) && (x <? mask_w m) && (0 <=? y) && (y <? mask_h m) && mask_bit m x y.

(** [m.overlap(other, (ox, oy))]: is there a point [(x, y)] of [m] whose
    bit is set and whose bit in [other], placed at offset [(ox, oy)], is
    set too.  The search runs over the columns and rows the two masks
    share, as pygame's [bitmask_overlap_pos] does. *)
Definition overlap (m other : Mask) (ox oy : Z) : bool :=
  existsb (fun x =>
    existsb (fun y => mask_get m x y && mask_get other (x - ox) (y - oy))
      (zrange (Z.max 0 oy) (Z.min (mask_h m) (oy + mask_h other))))
    (zrange (Z.max 0 ox) (Z.min (mask_w m) (ox + mask_w other))).

(** A fully opaque image of the given size. *)
Definition full_mask (w h : Z) : Mask := mkMask w h (fun _ _ => true).

(** [pygame.transform.flip(image, False, True)] then [from_surface]: row
    [y] of the flipped mask is row [h - 1 - y] of the original. *)
Definition flip_v (m : Mask) : Mask :=
  mkMask (mask_w m) (mask_h m) (fun x y => mask_bit m x (mask_h m - 1 - y)).

(** What the collision code uses of a sprite. *)
Class Sprite (S : Type) := {
  sprite_rect : S -> Rect;
  sprite_mask : S -> Mask
}.

(** Rect and mask come from the same image, so they have the same size. *)
Class SpriteWf (S : Type) `{Sprite S} :=
  sprite_dims : forall s, mask_w (sprite_mask s) = rect_w (sprite_rect s) /\
                          mask_h (sprite_mask s) = rect_h (sprite_rect s).

(** [pygame.sprite.collide_mask(left, right)]. *)
Definition collide_mask {A B} `{Sprite A} `{Sprite B} (left : A) (right : B) : bool :=
  let xoffset := rect_x (sprite_rect right) - rect_x (sprite_rect left) in
  let yoffset := rect_y (sprite_rect right) - rect_y (sprite_rect left) in
  overlap (sprite_mask left) (sprite_mask right) xoffset yoffset.

(** [pygame.sprite.groupcollide(g1, g2, False, False, collide_mask)] is a
    dictionary; the code uses only whether it is empty. *)
Definition groupcollide {A B} `{Sprite A} `{Sprite B} (g1 : list A) (g2 : list B) : bool :=
  existsb (fun a => existsb (collide_mask a) g2) g1.

(** [is_off_screen(sprite)] of [src/main.py]: the sprite has left the
    window on the left, all of it. *)
Definition is_off_screen {S} `{Sprite S} (s : S) : bool :=
  rect_x (sprite_rect s) <? - rect_w (sprite_rect s).

(** ** Lemmas *)

Lemma mask_get_true m x y :
  mask_get m x y = true <->
  0 <= x < mask_w m /\ 0 <= y < mask_h m /\ mask_bit m x y = true.
Proof.
  unfold mask_get. rewrite !andb_true_iff, Z.leb_le, !Z.ltb_lt, Z.leb_le. tauto.
Qed.

(** The bounded search decides the existence of a common set bit. *)
Theorem overlap_spec m other ox oy :
  overlap m other ox oy = true <->
  exists x y, mask_get m x y = true /\ mask_get other (x - ox) (y - oy) = true.
Proof.
  unfold overlap. rewrite existsb_zrange. split.
  - intros (x & _ & Hx). apply existsb_zrange in Hx as (y & _ & Hy).
    apply andb_true_iff in Hy. eauto.
  - intros (x & y & H1 & H2).
    pose proof (proj1 (mask_get_true _ _ _) H1).
    pose proof (proj1 (mask_get_true _ _ _) H2).
    exists x. split; [lia |]. apply existsb_zrange.
    exists y. split; [lia | now rewrite H1, H2].
Qed.

Section Collide.
Context {A B : Type} `{SA : Sprite A} `{WA : !SpriteWf A} `{SB : Sprite B} `{WB : !SpriteWf B}.

(** Mask collision is finer than rectangle collision. *)
Theorem collide_mask_rect (a : A) (b : B) :
  collide_mask a b = true -> rect_overlap (sprite_rect a) (sprite_rect b).
Proof.
  unfold collide_mask. rewrite overlap_spec.
  intros (x & y & Ha & Hb).
  apply mask_get_true in Ha, Hb.
  destruct (sprite_dims a), (sprite_dims b).
  unfold rect_overlap. lia.
Qed.

(** For opaque images, mask collision is rectangle collision. *)
Lemma collide_mask_full (a : A) (b : B) :
  (forall x y, mask_bit (sprite_mask a) x y = true) ->
  (forall x y, mask_bit (sprite_mask b) x y = true) ->
  collide_mask a b = true <-> rect_overlap (sprite_rect a) (sprite_rect b).
Proof.
  intros Fa Fb. split; [apply collide_mask_rect |].
  intros Hov. unfold collide_mask. apply overlap_spec.
  destruct (sprite_dims a), (sprite_dims b). unfold rect_overlap in Hov.
  exists (Z.max (rect_x (sprite_rect a)) (rect_x (sprite_rect b)) - rect_x (sprite_rect a)),
         (Z.max (rect_y (sprite_rect a)) (rect_y (sprite_rect b)) - rect_y (sprite_rect a)).
  rewrite !mask_get_true. repeat split; auto; lia.
Qed.

(** No rectangle of the group meets the sprite: no collision. *)
Lemma groupcollide_false (g1 : list A) (g2 : list B) :
  (forall a b, In a g1 -> In b g2 -> ~ rect_overlap (sprite_rect a) (sprite_rect b)) ->
  groupcollide g1 g2 = false.
Proof.
  intros Hno. unfold groupcollide. apply not_true_is_false.
  rewrite existsb_exists. intros (a & Ha & Hb).
  apply existsb_exists in Hb as (b & Hb & Hc).
  exact (Hno a b Ha Hb (collide_mask_rect a b Hc)).
Qed.
(** A colliding pair makes the group test succeed. *)
Lemma groupcollide_true (g1 : list A) (g2 : list B) a b :
  In a g1 -> In b g2 -> collide_mask a b = true -> groupcollide g1 g2 = true.
Proof.
  intros Ha Hb Hc. unfold groupcollide. apply existsb_exists.
  exists a. split; [exact Ha |]. apply existsb_exists. eauto.
Qed.

(** The group test succeeds only on a colliding pair. *)
Lemma groupcollide_inv (g1 : list A) (g2 : list B) :
  groupcollide g1 g2 = true -> exists a b, In a g1 /\ In b g2 /\ collide_mask a b = true.
Proof.
  unfold groupcollide. rewrite existsb_exists. intros (a & Ha & Hb).
  apply existsb_exists in Hb as (b & Hb & Hc). eauto.
Qed.
End Collide.

#[export] Hint Resolve groupcollide_false : flappy.
