(* ===== verification/Config.v ===== *)
(** * Constants and assets of [src/main.py]

    The module-level constants of [src/main.py] (lines 7-18) and the
    images the sprites are built from.  The images are loaded from files
    the repository does not hold; the model keeps each image as its bit
    mask ([Geometry.Mask]), fixed by the class [Assets], and [AssetsWf]
    records the sizes the code forces with [pygame.transform.scale]. *)

From Stdlib Require Import ZArith Lia.
From stdpp Require Import base.
From S2P Require Import Prelude Geometry.
Open Scope Z_scope.

Definition SCREEN_WIDTH : Z := 400.
Definition SCREEN_HEIGHT : Z := 600.
Definition BIRD_SPEED : Z := 20.
(** [GRAVITY = 2.5], in half units. *)
Definition GRAVITY2 : Z := 5.
Definition GAME_SPEED : Z := 15.

Definition GROUND_WIDTH : Z := 2 * SCREEN_WIDTH.
Definition GROUND_HEIGHT : Z := 100.

Definition PIPE_WIDTH : Z := 80.
Definition PIPE_HEIGHT : Z := 500.
Definition PIPE_GAP : Z := 150.

(** [consts] unfolds the constants everywhere, for [lia]. *)
Ltac consts :=
  unfold GROUND_WIDTH, SCREEN_WIDTH, SCREEN_HEIGHT, BIRD_SPEED, GRAVITY2,
    GAME_SPEED, GROUND_HEIGHT, PIPE_WIDTH, PIPE_HEIGHT, PIPE_GAP in *.

(** The images, as the masks [pygame.mask.from_surface] computes from
    them:
    - [bird_upflap]: ['bluebird-upflap.png'], [Bird.images[0]], from which
      the bird's [rect] and [mask] are taken once, in [Bird.__init__];
    - [pipe_green]: ['pipe-green.png'] scaled to [(PIPE_WIDTH, PIPE_HEIGHT)];
    - [base]: ['base.png'] scaled to [(GROUND_WIDTH, GROUND_HEIGHT)]. *)
Class Assets := {
  bird_upflap : Mask;
  pipe_green : Mask;
  base : Mask
}.

(** The sizes the code fixes by scaling. *)
Class AssetsWf `{Assets} := {
  pipe_green_w : mask_w pipe_green = PIPE_WIDTH;
  pipe_green_h : mask_h pipe_green = PIPE_HEIGHT;
  base_w : mask_w base = GROUND_WIDTH;
  base_h : mask_h base = GROUND_HEIGHT
}.

(** A concrete set of images for the witnesses: the repository's
    ['bluebird-upflap.png'] is 34 x 24 pixels; the images are taken
    opaque. *)
Definition opaque_assets : Assets := {|
  bird_upflap := full_mask 34 24;
  pipe_green := full_mask PIPE_WIDTH PIPE_HEIGHT;
  base := full_mask GROUND_WIDTH GROUND_HEIGHT
|}.

Lemma opaque_assets_wf : @AssetsWf opaque_assets.
Proof. split; reflexivity. Qed.
