(* ===== verification/Random.v ===== *)
(** * The interface of Python's [random] module

    Both programs draw pipe positions with Python's [random] module:
    [random.randint(100, 300)] in [src/main.py] (line 105) and
    [random.randrange(0, n)] in [src/unnamed/part_000] (line 146).  The
    generator itself (a Mersenne twister) is library code; the class
    [RandomSource] states what the programs rely on: a state, and
    [_randbelow(n)], which for [n > 0] returns a number in [[0, n)] and a
    new state.  [randrange] and [randint] are written as CPython's
    [random.py] writes them on top of [_randbelow], with the [ValueError]
    of an empty range.  Every theorem of a client holds for every
    instance; [lcg] is one instance, used by the witnesses. *)

From Stdlib Require Import ZArith Lia.
From stdpp Require Import base.
From S2P Require Import Prelude.
Open Scope Z_scope.

Class RandomSource (Σ : Type) := {
  randbelow : Σ -> Z -> Z * Σ;
  randbelow_range : forall s n, 0 < n -> 0 <= fst (randbelow s n) < n
}.

Section Random.
Context {Σ : Type} `{RandomSource Σ}.

(** [random.randrange(start, stop)]: [start + _randbelow(stop - start)],
    or [ValueError] for an empty range. *)
Definition randrange (s : Σ) (start stop : Z) : (Z * Σ) + PyExc :=
  let width := stop - start in
  if 0 <? width then
    let '(r, s') := randbelow s width in inl (start + r, s')
  else inr ValueError.

(** [random.randint(a, b)] is [randrange(a, b + 1)]. *)
Definition randint (s : Σ) (a b : Z) : (Z * Σ) + PyExc :=
  randrange s a (b + 1).

Lemma randrange_ok s start stop :
  start < stop ->
  exists r s', randrange s start stop = inl (r, s') /\ start <= r < stop.
Proof.
  intros Hlt. unfold randrange.
  destruct (Z.ltb_spec 0 (stop - start)); [| lia].
  pose proof (randbelow_range s (stop - start) ltac:(lia)) as Hr.
  destruct (randbelow s (stop - start)) as [r s'] eqn:E. simpl in Hr.
  exists (start + r), s'. split; [reflexivity | lia].
Qed.

Lemma randrange_empty s start stop :
  stop <= start -> randrange s start stop = inr ValueError.
Proof.
  intros Hle. unfold randrange.
  destruct (Z.ltb_spec 0 (stop - start)); [lia | reflexivity].
Qed.

(** [randint a b] never fails when [a <= b] and lands in [[a, b]]. *)
Lemma randint_ok s a b :
  a <= b ->
  exists r s', randint s a b = inl (r, s') /\ a <= r <= b.
Proof.
  intros Hle. unfold randint.
  destruct (randrange_ok s a (b + 1)) as (r & s' & E & Hr); [lia |].
  exists r, s'. split; [exact E | lia].
Qed.
End Random.

(** A linear congruential generator, as a concrete instance. *)
Definition lcg_next (s : Z) : Z := (s * 1103515245 + 12345) mod 2147483648.

Definition lcg_randbelow (s n : Z) : Z * Z := (s mod n, lcg_next s).

Lemma lcg_randbelow_range s n : 0 < n -> 0 <= fst (lcg_randbelow s n) < n.
Proof. intros Hn. apply Z.mod_pos_bound. exact Hn. Qed.

#[export] Instance lcg : RandomSource Z := {
  randbelow := lcg_randbelow;
  randbelow_range := lcg_randbelow_range
}.
