(* ===== verification/PipeGen.v ===== *)
(** * The pipes of [src/main.py]: class [Pipe], [get_random_pipes] and the
    pipe group (lines 61-81, 103-108, 130-134, 194-199, 204)

    - [Module Pipe]: the sprite, [Pipe.__init__(inverted, xpos, ysize)]
      and [Pipe.update].  A pipe image is scaled to [PIPE_WIDTH] x
      [PIPE_HEIGHT]; an inverted pipe hangs from the top ([rect.y] is
      negative), the other stands on the bottom of the window.
    - [Section Group]: the pipe group, a list of sprites in insertion
      order as [pygame.sprite.Group.sprites()] returns them; the two pairs
      created at start-up ([initial_pipes]), the recycling of the main loop
      ([recycle]: when [sprites()[0]] is off screen, the first two sprites
      are removed and a new pair is added at [SCREEN_WIDTH * 2]) and the
      move of every sprite ([update_pipes]).  Random draws go through the
      [Random.RandomSource] interface.
    - [Module Gates]: the abstract view: a list of gates [(x, size)], each
      of which stands for a bottom pipe and a top pipe.  [pipes_frame]
      refines [Gates.frame] ([pipes_frame_refines]); the gates invariant
      ([Gates.inv]: two gates, in order, at the spacings the code produces)
      holds in every frame ([Gates.inv_frame]) and from the start
      ([initial_pipes_inv]).

    Theorems: every generated pair has the gap [PIPE_GAP] exactly, for
    every draw ([get_random_pipes_gap]); the group always holds two
    ordered pairs, so [sprites()[0]] never raises. *)

From Stdlib Require Import ZArith Lia.
From stdpp Require Import base list.
From S2P Require Import Prelude Geometry Config Random.
Open Scope Z_scope.

Module Pipe.

Record Pipe := mkPipe {
  inverted : bool;   (** the [inverted] argument of [__init__] *)
  pipe_x : Z;        (** [self.rect.x] *)
  pipe_y : Z         (** [self.rect.y] *)
}.

(** [Pipe.__init__(inverted, xpos, ysize)]; [self.rect.height] is
    [PIPE_HEIGHT], the height the image is scaled to. *)
Definition init (inv : bool) (xpos ysize : Z) : Pipe :=
  {| inverted := inv;
     pipe_x := xpos;
     pipe_y := if inv then - (PIPE_HEIGHT - ysize) else SCREEN_HEIGHT - ysize |}.

(** [Pipe.update]: [self.rect.x -= GAME_SPEED]. *)
Definition update (p : Pipe) : Pipe :=
  {| inverted := inverted p; pipe_x := pipe_x p - GAME_SPEED; pipe_y := pipe_y p |}.

Section Sprite.
Context `{Assets}.

(** The rect of the scaled image; the mask of the (flipped) image. *)
#[export] Instance sprite : Sprite Pipe := {
  sprite_rect p := mkRect (pipe_x p) (pipe_y p) PIPE_WIDTH PIPE_HEIGHT;
  sprite_mask p := if inverted p then flip_v pipe_green else pipe_green
}.

#[export] Instance sprite_wf `{W : !AssetsWf} : SpriteWf Pipe.
Proof.
  intros p. simpl. destruct (inverted p); simpl; split; apply W.
Qed.
End Sprite.

Lemma update_init inv x y : update (init inv x y) = init inv (x - GAME_SPEED) y.
Proof. reflexivity. Qed.

End Pipe.

Import Pipe.

Section Group.
Context `{Assets} {Σ : Type} `{RandomSource Σ}.

(** [get_random_pipes(xpos)]: one draw of [random.randint(100, 300)],
    then the bottom pipe and the top pipe at the same [xpos]. *)
Definition get_random_pipes (xpos : Z) (s : Σ) : ((Pipe * Pipe) * Σ) + PyExc :=
  match randint s 100 300 with
  | inl (size, s') =>
      inl ((Pipe.init false xpos size,
            Pipe.init true xpos (SCREEN_HEIGHT - size - PIPE_GAP)), s')
  | inr e => inr e
  end.

(** The loop [for i in range(2)] that fills the pipe group at start-up. *)
Fixpoint fill_pipes (idx : list Z) (g : list Pipe) (s : Σ) : (list Pipe * Σ) + PyExc :=
  match idx with
  | [] => inl (g, s)
  | i :: rest =>
      match get_random_pipes (SCREEN_WIDTH * i + 800) s with
      | inl ((bottom, top), s') => fill_pipes rest (g ++ [bottom; top]) s'
      | inr e => inr e
      end
  end.

Definition initial_pipes (s : Σ) : (list Pipe * Σ) + PyExc :=
  fill_pipes [0; 1] [] s.

(** The recycling at the top of the main loop: [sprites()[0]] raises
    [IndexError] on an empty group. *)
Definition recycle (g : list Pipe) (s : Σ) : (list Pipe * Σ) + PyExc :=
  match g with
  | [] => inr IndexError
  | p :: rest =>
      if is_off_screen p then
        match rest with
        | [] => inr IndexError
        | _ :: rest' =>
            match get_random_pipes (SCREEN_WIDTH * 2) s with
            | inl ((bottom, top), s') => inl (rest' ++ [bottom; top], s')
            | inr e => inr e
            end
        end
      else inl (g, s)
  end.

(** [pipe_group.update()]. *)
Definition update_pipes (g : list Pipe) : list Pipe := map Pipe.update g.

(** What one frame of the main loop does to the pipe group. *)
Definition pipes_frame (g : list Pipe) (s : Σ) : (list Pipe * Σ) + PyExc :=
  match recycle g s with
  | inl (g', s') => inl (update_pipes g', s')
  | inr e => inr e
  end.

End Group.

(** ** The abstract view: gates *)
Module Gates.

Record Gate := mkGate { gate_x : Z; gate_size : Z }.

(** The two sprites a gate stands for, in the order they are added. *)
Definition gate_pipes (g : Gate) : list Pipe :=
  [Pipe.init false (gate_x g) (gate_size g);
   Pipe.init true (gate_x g) (SCREEN_HEIGHT - gate_size g - PIPE_GAP)].

Definition sprites_of (gs : list Gate) : list Pipe := concat (map gate_pipes gs).

Definition move (g : Gate) : Gate := mkGate (gate_x g - GAME_SPEED) (gate_size g).

(** One frame: the leftmost gate leaves once it is past the left edge,
    a new gate of the drawn size enters at [2 * SCREEN_WIDTH], all gates
    move left. *)
Definition frame (gs : list Gate) (size : Z) : list Gate :=
  map move
    (match gs with
     | g :: rest => if gate_x g <? - PIPE_WIDTH then rest ++ [mkGate (2 * SCREEN_WIDTH) size] else gs
     | [] => []
     end).

(** Two gates, sizes from the draw range, and the spacing the frames
    produce: the first gate sits on one of two residues modulo
    [GAME_SPEED], and the second follows it by 400, 405, 480 or 485. *)
Definition inv (gs : list Gate) : Prop :=
  match gs with
  | [g1; g2] =>
      100 <= gate_size g1 <= 300 /\ 100 <= gate_size g2 <= 300 /\
      -95 <= gate_x g1 <= 800 /\
      ((gate_x g1 mod 15 = 5 /\
        (gate_x g2 - gate_x g1 = 400 \/ gate_x g2 - gate_x g1 = 405 \/
         gate_x g2 - gate_x g1 = 480)) \/
       (gate_x g1 mod 15 = 0 /\ gate_x g2 - gate_x g1 = 485))
  | _ => False
  end.

#[export] Instance inv_dec gs : Decision (inv gs).
Proof. destruct gs as [| g1 [| g2 [|]]]; simpl; apply _. Defined.

(** The invariant holds in every frame, whatever the draw. *)
Theorem inv_frame gs size :
  inv gs -> 100 <= size <= 300 -> inv (frame gs size).
Proof.
  destruct gs as [| [x1 s1] [| [x2 s2] [|]]]; simpl; try tauto.
  intros Hinv Hs. unfold frame. cbn [gate_x].
  destruct (Z.ltb_spec x1 (- PIPE_WIDTH));
    cbn [inv map app move gate_x gate_size];
    unfold PIPE_WIDTH, SCREEN_WIDTH, GAME_SPEED in *; zmod_solve.
Qed.

Lemma inv_sizes gs : inv gs -> Forall (fun g => 100 <= gate_size g <= 300) gs.
Proof.
  destruct gs as [| g1 [| g2 [|]]]; simpl; try tauto.
  intros Hinv. repeat constructor; lia.
Qed.

(** A lower bound on the columns of all gates drops by [GAME_SPEED] per
    frame: the gate that enters starts at the right. *)
Lemma frame_x_lower gs size lo :
  lo <= 2 * SCREEN_WIDTH ->
  Forall (fun g => lo <= gate_x g) gs ->
  Forall (fun g => lo - GAME_SPEED <= gate_x g) (frame gs size).
Proof.
  intros Hlo Hall. unfold frame. apply Forall_map.
  destruct gs as [| g rest]; [constructor |].
  inversion Hall as [| ? ? Hg Hrest]; subst.
  destruct (gate_x g <? - PIPE_WIDTH).
  - apply Forall_app. split.
    + eapply Forall_impl; [exact Hrest |]. intros x Hx. cbv beta in *. cbn [gate_x move]. lia.
    + repeat constructor. cbn [gate_x move]. lia.
  - constructor; [cbn [gate_x move]; lia |].
    eapply Forall_impl; [exact Hrest |]. intros x Hx. cbv beta in *. cbn [gate_x move]. lia.
Qed.

Lemma inv_ordered gs :
  inv gs -> exists g1 g2, gs = [g1; g2] /\ gate_x g1 + 400 <= gate_x g2.
Proof.
  destruct gs as [| g1 [| g2 [|]]]; simpl; try tauto.
  intros Hinv. exists g1, g2. split; [reflexivity | lia].
Qed.

End Gates.

Import Gates.

#[export] Hint Resolve Gates.inv_frame : flappy.

(** ** Properties *)

Section Props.
Context `{Assets} {Σ : Type} `{RandomSource Σ}.

Lemma update_sprites_of gs : update_pipes (sprites_of gs) = sprites_of (map move gs).
Proof.
  induction gs as [| g gs IH]; [reflexivity |].
  unfold update_pipes, sprites_of in *. simpl. rewrite IH. reflexivity.
Qed.

Lemma sprites_of_app gs1 gs2 : sprites_of (gs1 ++ gs2) = sprites_of gs1 ++ sprites_of gs2.
Proof. unfold sprites_of. rewrite map_app, concat_app. reflexivity. Qed.

Lemma off_screen_init inv x y :
  is_off_screen (Pipe.init inv x y) = (x <? - PIPE_WIDTH).
Proof. reflexivity. Qed.

(** C8. Every pair has the gap [PIPE_GAP] exactly: the bottom edge of the top
    pipe is [PIPE_GAP] above the top edge of the bottom pipe, both pipes
    share [xpos], and the bottom pipe's top edge lies in [[300, 500]], for
    every draw; the call never raises. *)
Theorem get_random_pipes_gap (xpos : Z) (s : Σ) :
  exists bottom top s',
    get_random_pipes xpos s = inl ((bottom, top), s') /\
    inverted bottom = false /\ inverted top = true /\
    pipe_x bottom = xpos /\ pipe_x top = xpos /\
    pipe_y bottom - (pipe_y top + PIPE_HEIGHT) = PIPE_GAP /\
    300 <= pipe_y bottom <= 500.
Proof.
  unfold get_random_pipes.
  destruct (randint_ok s 100 300) as (r & s' & -> & Hr); [lia |].
  do 3 eexists. split; [reflexivity |].
  simpl. consts. repeat split; try reflexivity; lia.
Qed.

(** A frame on a group made of gates, as long as a gate remains: it
    never raises, and its result is made of the gates of [Gates.frame]
    for a draw in the range of [randint(100, 300)]. *)
Theorem pipes_frame_refines (gs : list Gate) (s : Σ) :
  length gs <> 1%nat ->
  gs <> [] ->
  exists size s', 100 <= size <= 300 /\
    pipes_frame (sprites_of gs) s = inl (sprites_of (Gates.frame gs size), s').
Proof.
  intros _ Hne. destruct gs as [| g rest]; [congruence |].
  unfold pipes_frame, Gates.frame.
  change (sprites_of (g :: rest)) with
    (Pipe.init false (gate_x g) (gate_size g) ::
     Pipe.init true (gate_x g) (SCREEN_HEIGHT - gate_size g - PIPE_GAP) :: sprites_of rest).
  unfold recycle. rewrite off_screen_init.
  destruct (gate_x g <? - PIPE_WIDTH).
  - unfold get_random_pipes.
    destruct (randint_ok s 100 300) as (r & s' & -> & Hr); [lia |].
    exists r, s'. split; [exact Hr |].
    rewrite <- update_sprites_of, sprites_of_app. reflexivity.
  - exists 100, s. split; [lia |].
    rewrite <- update_sprites_of. reflexivity.
Qed.

(** The recycling step alone, as the main loop calls it before the
    update. *)
Lemma recycle_ok (gs : list Gate) (s : Σ) :
  Gates.inv gs ->
  exists ps s' size, recycle (sprites_of gs) s = inl (ps, s') /\
    100 <= size <= 300 /\ update_pipes ps = sprites_of (Gates.frame gs size).
Proof.
  intros Hinv. destruct (inv_ordered gs Hinv) as (g1 & g2 & -> & _).
  destruct (pipes_frame_refines [g1; g2] s) as (size & s' & Hs & E); [simpl; lia | congruence |].
  unfold pipes_frame in E. destruct (recycle _ s) as [[ps s''] | e]; [| discriminate].
  injection E as E1 E2. exists ps, s'', size. auto.
Qed.

(** The sprites of gates: each is the bottom or the top pipe of a gate. *)
Lemma in_sprites_of p gs :
  In p (sprites_of gs) ->
  exists g, In g gs /\
    (p = Pipe.init false (gate_x g) (gate_size g) \/
     p = Pipe.init true (gate_x g) (SCREEN_HEIGHT - gate_size g - PIPE_GAP)).
Proof.
  unfold sprites_of. rewrite in_concat. intros (l & Hl & Hp).
  apply in_map_iff in Hl as (g & <- & Hg). exists g. split; [exact Hg |].
  simpl in Hp. intuition auto.
Qed.

(** The start-up group: the gates at 800 and 1200, of drawn sizes. *)
Lemma initial_pipes_gates (s : Σ) :
  exists r0 r1 s', initial_pipes s = inl (sprites_of [mkGate 800 r0; mkGate 1200 r1], s') /\
    100 <= r0 <= 300 /\ 100 <= r1 <= 300.
Proof.
  unfold initial_pipes, fill_pipes, get_random_pipes.
  destruct (randint_ok s 100 300) as (r0 & s1 & -> & Hr0); [lia |].
  destruct (randint_ok s1 100 300) as (r1 & s2 & -> & Hr1); [lia |].
  exists r0, r1, s2. auto.
Qed.

Lemma initial_gates_inv r0 r1 :
  100 <= r0 <= 300 -> 100 <= r1 <= 300 ->
  Gates.inv [mkGate 800 r0; mkGate 1200 r1] /\
  Forall (fun g => 2 * SCREEN_WIDTH <= gate_x g) [mkGate 800 r0; mkGate 1200 r1].
Proof.
  intros Hr0 Hr1. split; [cbn; zmod_solve |]. repeat constructor; simpl; consts; lia.
Qed.

(** C4. A frame of the main loop on the pipe group, from any state of the
    gates invariant: it never raises, its result is the group of the
    abstract frame [Gates.frame] for a draw in the range of
    [randint(100, 300)], the invariant holds again, and the two gates are
    in order, at least 400 pixels apart, so checking [sprites()[0]] alone
    finds the gate that leaves first. *)
Theorem pipe_group_frame (gs : list Gate) (s : Σ) :
  Gates.inv gs ->
  exists size s', 100 <= size <= 300 /\
    pipes_frame (sprites_of gs) s = inl (sprites_of (Gates.frame gs size), s') /\
    Gates.inv (Gates.frame gs size) /\
    exists g1 g2, Gates.frame gs size = [g1; g2] /\ gate_x g1 + 400 <= gate_x g2.
Proof.
  intros Hinv. destruct (inv_ordered gs Hinv) as (g1 & g2 & -> & _).
  destruct (pipes_frame_refines [g1; g2] s) as (size & s' & Hs & E); [simpl; lia | congruence |].
  exists size, s'. split; [exact Hs |]. split; [exact E |].
  pose proof (Gates.inv_frame _ size Hinv Hs) as Hinv'.
  split; [exact Hinv' |]. apply inv_ordered. exact Hinv'.
Qed.


End Props.

(** ** Witnesses *)
Section Witnesses.
#[local] Existing Instance opaque_assets.

Lemma pipe_group_frame_witness :
  let gs := [mkGate (-85) 150; mkGate 315 220] in
  Gates.inv gs /\
  exists size s', 100 <= size <= 300 /\
    pipes_frame (sprites_of gs) (7 : Z) = inl (sprites_of (Gates.frame gs size), s') /\
    Gates.inv (Gates.frame gs size) /\
    exists g1 g2, Gates.frame gs size = [g1; g2] /\ gate_x g1 + 400 <= gate_x g2.
Proof.
  intros gs. assert (Hi : Gates.inv gs) by (apply (bool_decide_unpack _); vm_compute; exact I).
  split; [exact Hi | exact (pipe_group_frame gs 7 Hi)].
Defined.

End Witnesses.
