(* ===== verification/GroundScroll.v ===== *)
(** * The ground of [src/main.py]: class [Ground] and the ground group
    (lines 83-97, 125-128, 159-162, 165, 189-192, 203)

    - [Module Ground]: the sprite, [Ground.__init__(xpos)] (the image is
      scaled to [GROUND_WIDTH] x [GROUND_HEIGHT] and sits at the bottom of
      the window) and [Ground.update].
    - [Section Group]: the ground group of two tiles ([initial_grounds]);
      both loops first [rewrap] it (when [sprites()[0]] is off screen it is
      removed and a new tile is added at [GROUND_WIDTH - 20]) and later
      move it ([update_grounds]); [ground_frame] is the two in order.

    Theorems: the invariant [ground_inv] (two tiles at one of three
    spacings, the first at a fixed residue modulo [GAME_SPEED]) holds at
    start-up and after every frame, the frame never raises
    ([ground_frame_inv]), and every state of the invariant covers the
    whole width of the window ([ground_inv_covers]).  The tile added by the
    rewrap is not placed at its sibling's right edge (as the specification
    says) but at the fixed column 780, so consecutive tiles overlap by 5
    or 10 pixels. *)

From Stdlib Require Import ZArith Lia.
From stdpp Require Import base list.
From S2P Require Import Prelude Geometry Config.
Open Scope Z_scope.

Module Ground.

Record Ground := mkGround { ground_x : Z (** [self.rect.x] *) }.

(** [Ground.__init__(xpos)]; [self.rect.y] is always
    [SCREEN_HEIGHT - GROUND_HEIGHT]. *)
Definition init (xpos : Z) : Ground := {| ground_x := xpos |}.

(** [Ground.update]: [self.rect.x -= GAME_SPEED]. *)
Definition update (g : Ground) : Ground := {| ground_x := ground_x g - GAME_SPEED |}.

Section Sprite.
Context `{Assets}.

#[export] Instance sprite : Sprite Ground := {
  sprite_rect g := mkRect (ground_x g) (SCREEN_HEIGHT - GROUND_HEIGHT) GROUND_WIDTH GROUND_HEIGHT;
  sprite_mask _ := base
}.

#[export] Instance sprite_wf `{W : !AssetsWf} : SpriteWf Ground.
Proof. intros g. simpl. split; apply W. Qed.
End Sprite.

End Ground.

Import Ground.

Section Group.
Context `{Assets}.

(** [for i in range(2): ground_group.add(Ground(GROUND_WIDTH * i))]. *)
Definition initial_grounds : list Ground :=
  map (fun i => Ground.init (GROUND_WIDTH * i)) [0; 1].

(** [if is_off_screen(ground_group.sprites()[0]): remove it and add
    Ground(GROUND_WIDTH - 20)]; [sprites()[0]] of an empty group raises. *)
Definition rewrap (g : list Ground) : list Ground + PyExc :=
  match g with
  | [] => inr IndexError
  | first :: rest =>
      if is_off_screen first then inl (rest ++ [Ground.init (GROUND_WIDTH - 20)])
      else inl g
  end.

(** [ground_group.update()]. *)
Definition update_grounds (g : list Ground) : list Ground := map Ground.update g.

(** What one frame of either loop does to the ground group. *)
Definition ground_frame (g : list Ground) : list Ground + PyExc :=
  match rewrap g with
  | inl g' => inl (update_grounds g')
  | inr e => inr e
  end.

End Group.

(** Two tiles; the second starts 800, 790 or 795 pixels after the first,
    which is at a multiple of 15 (or 5 past one) and in the band the
    rewrap keeps it in. *)
Definition ground_inv (g : list Ground) : Prop :=
  match g with
  | [h; t] =>
      (ground_x t = ground_x h + 800 /\ ground_x h mod 15 = 0 /\ -810 <= ground_x h <= 0) \/
      (ground_x t = ground_x h + 790 /\ ground_x h mod 15 = 5 /\ -805 <= ground_x h <= -10) \/
      (ground_x t = ground_x h + 795 /\ ground_x h mod 15 = 0 /\ -810 <= ground_x h <= -15)
  | _ => False
  end.

#[export] Instance ground_inv_dec g : Decision (ground_inv g).
Proof. destruct g as [| h [| t [|]]]; simpl; apply _. Defined.

(** The window columns [[0, SCREEN_WIDTH)] are all under some tile. *)
Definition covers (g : list Ground) : Prop :=
  forall x, 0 <= x < SCREEN_WIDTH ->
  exists t, In t g /\ ground_x t <= x < ground_x t + GROUND_WIDTH.

Section Props.
Context `{Assets}.

Lemma initial_grounds_inv : ground_inv initial_grounds.
Proof. vm_compute. left. repeat split; congruence. Qed.

(** Every frame keeps the invariant and never raises. *)
Theorem ground_frame_inv (g : list Ground) :
  ground_inv g -> exists g', ground_frame g = inl g' /\ ground_inv g'.
Proof.
  destruct g as [| [h] [| [t] [|]]]; simpl; try tauto. intros Hinv.
  unfold ground_frame, rewrap, is_off_screen. cbn [sprite_rect sprite rect_x rect_w ground_x].
  destruct (Z.ltb_spec h (- GROUND_WIDTH)); eexists; (split; [reflexivity |]);
    cbn; consts; zmod_solve.
Qed.

(** The rewrap step alone, as the loops call it before the update. *)
Lemma rewrap_ok (g : list Ground) :
  ground_inv g -> exists gs, rewrap g = inl gs /\ ground_inv (update_grounds gs).
Proof.
  intros Hinv. destruct (ground_frame_inv g Hinv) as (g' & E & Hg').
  unfold ground_frame in E. destruct (rewrap g) as [gs | e]; [| discriminate].
  injection E as <-. eauto.
Qed.

(** The tiles stay on the bottom band of the window. *)
Lemma ground_rect_y (t : Ground) : rect_y (sprite_rect t) = SCREEN_HEIGHT - GROUND_HEIGHT.
Proof. reflexivity. Qed.

(** A state of the invariant leaves no column of the window uncovered. *)
Theorem ground_inv_covers (g : list Ground) : ground_inv g -> covers g.
Proof.
  destruct g as [| [h] [| [t] [|]]]; simpl; try tauto. intros Hinv x Hx.
  consts. cbn [ground_x] in *.
  destruct (Z.ltb_spec x (h + 800)).
  - exists (mkGround h). simpl. split; [auto | lia].
  - exists (mkGround t). simpl. split; [auto | lia].
Qed.

(** C5. A frame of either loop on the ground, from any state of the
    invariant: it never raises, the invariant holds again, and the tiles
    cover every column of the window. *)
Theorem ground_frame_covers (g : list Ground) :
  ground_inv g -> exists g', ground_frame g = inl g' /\ ground_inv g' /\ covers g'.
Proof.
  intros Hinv. destruct (ground_frame_inv g Hinv) as (g' & E & Hg').
  exists g'. split; [exact E |]. split; [exact Hg' | apply ground_inv_covers; exact Hg'].
Qed.

End Props.

(** ** Witnesses *)
Section Witnesses.
#[local] Existing Instance opaque_assets.

Lemma ground_frame_covers_witness :
  let g := [Ground.init (-810); Ground.init (-10)] in
  ground_inv g /\ exists g', ground_frame g = inl g' /\ ground_inv g' /\ covers g'.
Proof.
  intros g. assert (Hi : ground_inv g) by (apply (bool_decide_unpack _); vm_compute; exact I).
  split; [exact Hi | exact (ground_frame_covers g Hi)].
Defined.

End Witnesses.
