(* ===== verification/MainGame.v ===== *)
(** * The two loops of [src/main.py] (lines 110-219)

    The module-level code builds the bird, the ground group and the pipe
    group ([start]), then runs the start-screen loop (lines 141-171) until
    a flap key is pressed, then the main loop (lines 174-219) until a
    collision.  Each iteration of a loop is one frame: [welcome_frame] and
    [playing_frame], dispatched by [tick] on the [Phase]:
    - [Welcome]: the start screen; a flap key bumps the bird and leaves
      for [Playing] once the frame is finished;
    - [Playing]: the main loop;
    - [Crashed]: the collision test succeeded, the loop broke and the
      script ends;
    - [Raised e]: an exception escaped.  A [QUIT] event runs
      [pygame.quit(); sys.exit()], but [src/main.py] never imports [sys],
      so the quit ends the program with a [NameError].

    The state ([World]) is the bird, the two sprite groups, the state of
    the random generator and the list of sound cues started
    ([pygame.mixer.music.load/play]).  Rendering and the clock are not
    modelled.

    Theorems: the phase machine only moves forward ([step_phase]); the
    invariant of every reachable state ([reachable_inv]): the bird stays
    in its column, the ground covers the window, the pipes are two ordered
    gates, and the only exception is the [NameError] of a quit; the sound
    cues of a frame ([playing_events_cues]); a player who flaps at every
    frame is never stopped ([flap_forever]), because the code has no
    ceiling test. *)

From Stdlib Require Import ZArith Lia.
From stdpp Require Import base list.
From S2P Require Import Prelude Geometry Config Random BirdPhysics PipeGen GroundScroll.
Open Scope Z_scope.
Import (hints) Bird Pipe Ground.
Import Gates.

Inductive Key := K_SPACE | K_UP | K_OTHER.

(** [pygame.event.get()] returns these. *)
Inductive Event := QUIT | KEYDOWN (k : Key) | OTHER_EVENT.

(** The sounds the loops start: [WING_SOUND_PATH] and [HIT_SOUND_PATH]. *)
Inductive Cue := WING | HIT.

Inductive Phase := Welcome | Playing | Crashed | Raised (e : PyExc).

#[export] Instance key_eq_dec : EqDecision Key.
Proof. solve_decision. Defined.
#[export] Instance event_eq_dec : EqDecision Event.
Proof. solve_decision. Defined.
#[export] Instance cue_eq_dec : EqDecision Cue.
Proof. solve_decision. Defined.
#[export] Instance pyexc_eq_dec : EqDecision PyExc.
Proof. solve_decision. Defined.
#[export] Instance phase_eq_dec : EqDecision Phase.
Proof. solve_decision. Defined.

(** [event.key == K_SPACE or event.key == K_UP]. *)
Definition is_flap_key (k : Key) : bool :=
  match k with K_SPACE | K_UP => true | K_OTHER => false end.

Section Game.
Context `{Assets} {Σ : Type} `{RandomSource Σ}.

Record World := mkWorld {
  bird : Bird.Bird;
  grounds : list Ground.Ground;
  pipes : list Pipe.Pipe;
  rng : Σ;
  cues : list Cue
}.

(** [bird.bump(); pygame.mixer.music.load(WING_SOUND_PATH); ...play()]. *)
Definition flap (w : World) : World :=
  {| bird := Bird.bump (bird w); grounds := grounds w; pipes := pipes w;
     rng := rng w; cues := cues w ++ [WING] |}.

(** The event loop of the start screen; [started] is [game_started]. *)
Fixpoint welcome_events (evs : list Event) (w : World) (started : bool)
  : (World * bool) + PyExc :=
  match evs with
  | [] => inl (w, started)
  | QUIT :: _ => inr NameError
  | KEYDOWN k :: rest =>
      if is_flap_key k then welcome_events rest (flap w) true
      else welcome_events rest w started
  | OTHER_EVENT :: rest => welcome_events rest w started
  end.

(** The event loop of the main loop. *)
Fixpoint playing_events (evs : list Event) (w : World) : World + PyExc :=
  match evs with
  | [] => inl w
  | QUIT :: _ => inr NameError
  | KEYDOWN k :: rest =>
      if is_flap_key k then playing_events rest (flap w) else playing_events rest w
  | OTHER_EVENT :: rest => playing_events rest w
  end.

(** One iteration of the start-screen loop: events, ground rewrap,
    [bird.begin()], [ground_group.update()]; the loop is left when a flap
    key set [game_started]. *)
Definition welcome_frame (evs : list Event) (w : World) : Phase * World :=
  match welcome_events evs w false with
  | inr e => (Raised e, w)
  | inl (w1, started) =>
      match rewrap (grounds w1) with
      | inr e => (Raised e, w1)
      | inl gs =>
          (if started then Playing else Welcome,
           {| bird := Bird.begin (bird w1); grounds := update_grounds gs;
              pipes := pipes w1; rng := rng w1; cues := cues w1 |})
      end
  end.

(** [groupcollide(bird_group, ground_group, ...) or
    groupcollide(bird_group, pipe_group, ...)]. *)
Definition collides (w : World) : bool :=
  groupcollide [bird w] (grounds w) || groupcollide [bird w] (pipes w).

(** One iteration of the main loop: events, ground rewrap, pipe
    recycling, the three [update()] calls, the collision test (which
    starts the hit sound and breaks the loop). *)
Definition playing_frame (evs : list Event) (w : World) : Phase * World :=
  match playing_events evs w with
  | inr e => (Raised e, w)
  | inl w1 =>
      match rewrap (grounds w1) with
      | inr e => (Raised e, w1)
      | inl gs =>
          match recycle (pipes w1) (rng w1) with
          | inr e => (Raised e, w1)
          | inl (ps, s') =>
              let w2 := {| bird := Bird.update (bird w1); grounds := update_grounds gs;
                           pipes := update_pipes ps; rng := s'; cues := cues w1 |} in
              if collides w2 then
                (Crashed, {| bird := bird w2; grounds := grounds w2; pipes := pipes w2;
                             rng := rng w2; cues := cues w2 ++ [HIT] |})
              else (Playing, w2)
          end
      end
  end.

(** One frame of whichever loop runs; after a crash or an exception the
    program is over and nothing changes. *)
Definition tick (evs : list Event) (st : Phase * World) : Phase * World :=
  match fst st with
  | Welcome => welcome_frame evs (snd st)
  | Playing => playing_frame evs (snd st)
  | _ => st
  end.

(** The module-level set-up (lines 120-134). *)
Definition start (s : Σ) : Phase * World :=
  match initial_pipes s with
  | inl (ps, s') => (Welcome, mkWorld Bird.init initial_grounds ps s' [])
  | inr e => (Raised e, mkWorld Bird.init initial_grounds [] s [])
  end.

Definition running (p : Phase) : bool :=
  match p with Welcome | Playing => true | _ => false end.

(** A frame of a running program, with the events the player produced. *)
Inductive step : Phase * World -> Phase * World -> Prop :=
| step_tick evs st : running (fst st) = true -> step st (tick evs st).

End Game.

(** The flap keys among the events. *)
Definition count_flaps (evs : list Event) : nat :=
  length (List.filter (fun e => match e with KEYDOWN k => is_flap_key k | _ => false end) evs).

(** The phases a frame can lead to. *)
Definition phase_next (p q : Phase) : Prop :=
  match p with
  | Welcome => q = Welcome \/ q = Playing \/ exists e, q = Raised e
  | Playing => q = Playing \/ q = Crashed \/ exists e, q = Raised e
  | _ => False
  end.

Section Props.
Context `{Assets} {Σ : Type} `{RandomSource Σ}.

Lemma bump_bump b : Bird.bump (Bird.bump b) = Bird.bump b.
Proof. reflexivity. Qed.

(** Without a quit event, the event loop of the main loop bumps the bird
    once if some key was a flap key, starts one wing sound per flap key,
    and touches nothing else. *)
Theorem playing_events_cues (evs : list Event) (w : @World Σ) :
  QUIT ∉ evs ->
  exists w', playing_events evs w = inl w' /\
    grounds w' = grounds w /\ pipes w' = pipes w /\ rng w' = rng w /\
    cues w' = cues w ++ repeat WING (count_flaps evs) /\
    bird w' = (if decide (count_flaps evs = 0%nat) then bird w else Bird.bump (bird w)).
Proof.
  revert w. induction evs as [| e evs IH]; intros w Hq.
  - exists w. repeat split; try reflexivity. simpl. rewrite app_nil_r. reflexivity.
  - rewrite not_elem_of_cons in Hq. destruct Hq as [Hne Hq].
    destruct e as [| k |]; [congruence | |].
    + unfold count_flaps. simpl. destruct (is_flap_key k).
      * destruct (IH (flap w) Hq) as (w' & E & Hg & Hp & Hr & Hc & Hb).
        exists w'. rewrite E. simpl in *. unfold count_flaps in Hc, Hb.
        repeat split; try congruence.
        -- rewrite Hc. simpl. rewrite <- app_assoc. reflexivity.
        -- rewrite Hb. case_decide; simpl; auto.
      * exact (IH w Hq).
    + exact (IH w Hq).
Qed.

(** A quit event ends the program with the [NameError] of the missing
    [import sys]. *)
Theorem playing_events_quit (evs : list Event) (w : @World Σ) :
  QUIT ∈ evs -> playing_events evs w = inr NameError.
Proof.
  revert w. induction evs as [| e evs IH]; intros w Hq.
  - apply not_elem_of_nil in Hq. contradiction.
  - apply elem_of_cons in Hq. destruct e as [| k |]; simpl; [reflexivity | |];
      (destruct Hq as [Hq | Hq]; [discriminate |]);
      [destruct (is_flap_key k) |]; apply IH; exact Hq.
Qed.

(** The start-screen event loop is the main-loop one plus the flag. *)
Lemma welcome_events_playing (evs : list Event) (w : @World Σ) started :
  welcome_events evs w started =
  match playing_events evs w with
  | inl w' => inl (w', started || negb (Nat.eqb (count_flaps evs) 0))
  | inr e => inr e
  end.
Proof.
  revert w started. induction evs as [| e evs IH]; intros w started.
  - simpl. rewrite orb_false_r. reflexivity.
  - destruct e as [| k |]; simpl; [reflexivity | |].
    + unfold count_flaps. simpl. destruct (is_flap_key k); rewrite IH; unfold count_flaps.
      * destruct (playing_events evs (flap w)); [| reflexivity].
        simpl. rewrite orb_true_r. reflexivity.
      * reflexivity.
    + rewrite IH. reflexivity.
Qed.

(** Either outcome of an event loop: it keeps the groups, the generator
    and the bird's column, or it raises the [NameError] of a quit. *)
Lemma events_ok (evs : list Event) (w : @World Σ) :
  (exists w', playing_events evs w = inl w' /\ grounds w' = grounds w /\
     pipes w' = pipes w /\ rng w' = rng w /\ Bird.bird_x (bird w') = Bird.bird_x (bird w)) \/
  playing_events evs w = inr NameError.
Proof.
  destruct (decide (QUIT ∈ evs)) as [Hq | Hq].
  - right. apply playing_events_quit. exact Hq.
  - left. destruct (playing_events_cues evs w Hq) as (w' & E & Hg & Hp & Hr & _ & Hb).
    exists w'. repeat split; auto. rewrite Hb. case_decide; reflexivity.
Qed.

(** What holds in every state a run reaches. *)
Definition state_inv (st : Phase * @World Σ) : Prop :=
  Bird.bird_x (bird (snd st)) = 66 /\ ground_inv (grounds (snd st)) /\
  (exists gs, pipes (snd st) = sprites_of gs /\ Gates.inv gs) /\
  (forall e, fst st = Raised e -> e = NameError).

Lemma state_inv_start (s : Σ) : state_inv (start s).
Proof.
  unfold start. destruct (initial_pipes_gates s) as (r0 & r1 & s' & -> & Hr0 & Hr1).
  destruct (initial_gates_inv r0 r1 Hr0 Hr1) as [Hgs _].
  split; [reflexivity |]. split; [apply initial_grounds_inv |].
  split; [eauto |]. intros e Hc. discriminate.
Qed.

Lemma state_inv_tick (evs : list Event) (st : Phase * @World Σ) :
  state_inv st -> state_inv (tick evs st).
Proof.
  destruct st as [ph w]. intros (Hx & Hg & (gs & Hp & Hgs) & He).
  unfold tick, state_inv in *. simpl fst in *. simpl snd in *.
  destruct ph; try (repeat split; eauto; fail).
  - unfold welcome_frame. rewrite welcome_events_playing.
    destruct (events_ok evs w) as [(w1 & E & Eg & Ep & Er & Ex) | E]; rewrite E;
      [| simpl; repeat split; eauto; intros ? Hc; congruence].
    destruct (rewrap_ok (grounds w1)) as (gs1 & Ew & Hgs1); [congruence |].
    rewrite Ew. simpl. split; [rewrite Ex; exact Hx |]. split; [exact Hgs1 |].
    split; [exists gs; split; [congruence | exact Hgs] |]. intros e Hc. destruct (negb _); discriminate.
  - unfold playing_frame.
    destruct (events_ok evs w) as [(w1 & E & Eg & Ep & Er & Ex) | E]; rewrite E;
      [| simpl; repeat split; eauto; intros ? Hc; congruence].
    destruct (rewrap_ok (grounds w1)) as (gs1 & Ew & Hgs1); [congruence |].
    rewrite Ew, Ep, Hp.
    destruct (recycle_ok gs (rng w1) Hgs) as (ps & s' & size & Er' & Hsize & Eps).
    rewrite Er'.
    destruct (collides _); simpl; (split; [rewrite Ex; exact Hx |]); (split; [exact Hgs1 |]);
      (split; [exists (Gates.frame gs size); split; [exact Eps | apply Gates.inv_frame; assumption] |]);
      intros e Hc; discriminate.
Qed.

(** C2. Every reachable state: the bird stays in column 66, the two ground
    tiles satisfy their invariant (so they cover the window), the pipe
    group is made of two ordered gates, and the only exception that can
    end the program is the [NameError] of a quit; in particular
    [sprites()[0]] never raises. *)
Theorem reachable_inv (s : Σ) (st : Phase * @World Σ) :
  star step (start s) st -> state_inv st.
Proof.
  apply star_invariant; [apply state_inv_start |].
  intros x y Hx Hs. destruct Hs. apply state_inv_tick. exact Hx.
Qed.


(** C12. The start screen is left for the main loop only through a frame with
    a flap key and no quit, and the bird then starts with the upward
    speed of a flap. *)
Theorem welcome_leaves_on_flap (evs : list Event) (w : @World Σ) :
  fst (welcome_frame evs w) = Playing ->
  (count_flaps evs <> 0%nat) /\ QUIT ∉ evs /\
  Bird.speed2 (bird (snd (welcome_frame evs w))) = (- (2 * BIRD_SPEED)).
Proof.
  unfold welcome_frame. rewrite welcome_events_playing.
  destruct (decide (QUIT ∈ evs)) as [Hq | Hq].
  { rewrite (playing_events_quit evs w Hq). discriminate. }
  destruct (playing_events_cues evs w Hq) as (w1 & -> & _ & _ & _ & _ & Hb).
  destruct (rewrap (grounds w1)); [| discriminate]. simpl.
  destruct (Nat.eqb_spec (count_flaps evs) 0) as [Hz | Hz]; simpl; [discriminate |].
  intros _. split; [exact Hz |]. split; [exact Hq |].
  rewrite Hb. case_decide; [contradiction | reflexivity].
Qed.

(** C9. A frame whose events hold a quit ends the program with the
    [NameError] of the missing [import sys], in either loop. *)
Theorem tick_quit (evs : list Event) (st : Phase * @World Σ) :
  running (fst st) = true -> QUIT ∈ evs -> fst (tick evs st) = Raised NameError.
Proof.
  destruct st as [[] w]; cbn [fst running]; try discriminate; intros _ Hq;
    unfold tick; cbn [fst snd].
  - unfold welcome_frame. rewrite welcome_events_playing, playing_events_quit by exact Hq.
    reflexivity.
  - unfold playing_frame. rewrite playing_events_quit by exact Hq. reflexivity.
Qed.

(** C10. The sounds of a frame of the main loop: one wing sound per flap key
    among the events, then one hit sound if and only if the frame ends
    in a crash. *)
Theorem playing_frame_cues (evs : list Event) (w : @World Σ) :
  state_inv (Playing, w) -> QUIT ∉ evs ->
  cues (snd (playing_frame evs w)) =
  cues w ++ repeat WING (count_flaps evs) ++
  (if decide (fst (playing_frame evs w) = Crashed) then [HIT] else []).
Proof.
  intros (_ & Hg & (gs & Hp & Hgs) & _) Hq. simpl in *.
  destruct (playing_events_cues evs w Hq) as (w1 & E & Eg & Ep & _ & Ec & _).
  unfold playing_frame. rewrite E.
  destruct (rewrap_ok (grounds w1)) as (gs1 & -> & _); [congruence |].
  rewrite Ep, Hp. destruct (recycle_ok gs (rng w1) Hgs) as (ps & s' & size & -> & _).
  destruct (collides _); cbn [fst snd cues]; rewrite Ec; case_decide; try congruence;
    rewrite <- ?app_assoc, ?app_nil_r; reflexivity.
Qed.

End Props.

Lemma in_singleton_eq {A} (a x : A) : In x [a] -> x = a.
Proof. intros [-> | []]. reflexivity. Qed.

(** ** The collision test *)
Section Collision.
Context `{Assets} `{W : !AssetsWf} {Σ : Type}.


End Collision.

(** ** Flapping at every frame *)
Section FlapForever.
Context `{Assets} `{W : !AssetsWf} {Σ : Type} `{RandomSource Σ}.

(** The state after [k] frames of the main loop in which the player
    pressed the space bar: the bird has risen by at least 17 pixels per
    frame, and no pipe has come closer than [GAME_SPEED] pixels per frame
    from the right edge where the pipes start. *)
Definition flapping_inv (k : nat) (st : Phase * @World Σ) : Prop :=
  fst st = Playing /\ Bird.bird_x (bird (snd st)) = 66 /\
  Bird.bird_y (bird (snd st)) <= 300 - 17 * Z.of_nat k /\
  ground_inv (grounds (snd st)) /\
  exists gs, pipes (snd st) = sprites_of gs /\ Gates.inv gs /\
    Forall (fun g => 2 * SCREEN_WIDTH - GAME_SPEED * Z.of_nat k <= gate_x g) gs.

(** High above the pipes or left of them: no rectangle meets the bird. *)
Lemma flapping_no_collision (k : nat) (w : @World Σ) (gs : list Gate) :
  mask_w bird_upflap <= 80 -> mask_h bird_upflap <= 80 ->
  Bird.bird_x (bird w) = 66 ->
  Bird.bird_y (bird w) <= 300 - 17 * Z.of_nat (S k) ->
  pipes w = sprites_of gs ->
  Forall (fun g => 100 <= gate_size g <= 300) gs ->
  Forall (fun g => 2 * SCREEN_WIDTH - GAME_SPEED * Z.of_nat (S k) <= gate_x g) gs ->
  collides w = false.
Proof.
  intros Hbw Hbh Hx Hy Hp Hsz Hgx. unfold collides. apply orb_false_intro.
  - apply groupcollide_false. intros a t Ha _. apply in_singleton_eq in Ha as ->.
    unfold rect_overlap. simpl. consts. lia.
  - apply groupcollide_false. intros a p Ha Hin. apply in_singleton_eq in Ha as ->.
    rewrite Hp in Hin. apply in_sprites_of in Hin as (g & Hg & Hpg).
    rewrite List.Forall_forall in Hsz, Hgx. specialize (Hsz g Hg). specialize (Hgx g Hg).
    unfold rect_overlap. destruct Hpg as [-> | ->]; simpl; consts; lia.
Qed.

Lemma flapping_start (s : Σ) : flapping_inv 0 (tick [KEYDOWN K_SPACE] (start s)).
Proof.
  unfold start. destruct (initial_pipes_gates s) as (r0 & r1 & s' & -> & Hr0 & Hr1).
  destruct (initial_gates_inv r0 r1 Hr0 Hr1) as [Hgs Hx].
  destruct (rewrap_ok initial_grounds initial_grounds_inv) as (gs1 & E1 & Hg1).
  unfold tick, welcome_frame. cbn [fst snd welcome_events is_flap_key flap grounds].
  rewrite E1. unfold flapping_inv. simpl. split; [reflexivity |]. split; [reflexivity |].
  split; [reflexivity |]. split; [exact Hg1 |].
  eexists. split; [reflexivity |]. split; [exact Hgs |].
  eapply Forall_impl; [exact Hx |]. intros g Hg. cbv beta in *. consts. lia.
Qed.

Lemma flapping_frame (k : nat) (st : Phase * @World Σ) :
  mask_w bird_upflap <= 80 -> mask_h bird_upflap <= 80 ->
  flapping_inv k st -> flapping_inv (S k) (tick [KEYDOWN K_SPACE] st).
Proof.
  intros Hbw Hbh. destruct st as [ph w].
  intros (Hph & Hx & Hy & Hg & gs & Hp & Hgs & Hgx). simpl in *. subst ph.
  unfold tick, playing_frame. cbn [fst snd playing_events is_flap_key flap grounds pipes rng bird].
  destruct (rewrap_ok (grounds w) Hg) as (gs1 & -> & Hg1).
  rewrite Hp. destruct (recycle_ok gs (rng w) Hgs) as (ps & s' & size & -> & Hsize & Eps).
  pose proof (Bird.bump_update_rises (bird w)) as Hrise.
  pose proof (frame_x_lower gs size (2 * SCREEN_WIDTH - GAME_SPEED * Z.of_nat k)
                ltac:(consts; lia) Hgx) as Hgx'.
  consts.
  pose proof (Gates.inv_frame gs size Hgs Hsize) as Hgs'.
  rewrite (flapping_no_collision k _ (Gates.frame gs size));
    cbn [fst snd bird grounds pipes rng]; auto.
  - unfold flapping_inv. cbn [fst snd bird grounds pipes rng]. split; [reflexivity |]. split; [exact Hx |].
    split; [lia |]. split; [exact Hg1 |].
    exists (Gates.frame gs size). split; [exact Eps |]. split; [exact Hgs' |].
    eapply Forall_impl; [exact Hgx' |]. intros g Hg'. cbv beta in *. consts. lia.
  - lia.
  - apply Gates.inv_sizes. exact Hgs'.
  - eapply Forall_impl; [exact Hgx' |]. intros g Hg'. cbv beta in *. consts. lia.
Qed.

(** C1. A player who presses the space bar at every frame, from the first
    frame of the start screen on, is never stopped: the main loop runs
    for ever.  Each frame lifts the bird by at least 17 pixels while the
    pipes approach by 15, so the bird is above the highest pipe top
    before any pipe reaches its column; [src/main.py] has no test of the
    top of the window (the specification requires one).  The bird image
    is at most 80 x 80 pixels (the repository's is 34 x 24). *)
Theorem flap_forever (s : Σ) (n : nat) :
  mask_w bird_upflap <= 80 -> mask_h bird_upflap <= 80 ->
  fst (Nat.iter n (tick [KEYDOWN K_SPACE]) (tick [KEYDOWN K_SPACE] (start s))) = Playing.
Proof.
  intros Hbw Hbh.
  assert (Hinv : flapping_inv n (Nat.iter n (tick [KEYDOWN K_SPACE])
                                   (tick [KEYDOWN K_SPACE] (start s)))).
  { induction n as [| n IH]; [apply flapping_start |].
    apply flapping_frame; assumption. }
  apply Hinv.
Qed.

End FlapForever.

(** ** Without flapping *)
Section NoFlap.
Context {Σ : Type} `{RandomSource Σ}.
#[local] Existing Instance opaque_assets.
#[local] Existing Instance opaque_assets_wf.


(** C6. With opaque images, a bird whose rectangle reaches into the band of
    the ground collides, at whatever column, as long as the ground tiles
    are in their invariant (which every reachable state satisfies). *)
Theorem ground_contact_collides (w : @World Σ) :
  ground_inv (grounds w) ->
  0 <= Bird.bird_x (bird w) <= SCREEN_WIDTH - 34 ->
  SCREEN_HEIGHT - GROUND_HEIGHT < Bird.bird_y (bird w) + 24 ->
  Bird.bird_y (bird w) < SCREEN_HEIGHT ->
  collides w = true.
Proof.
  intros Hg Hx Hy1 Hy2. unfold collides. apply orb_true_intro. left.
  destruct (ground_inv_covers _ Hg (Bird.bird_x (bird w))) as (t & Ht & Hcov);
    [consts; lia |].
  apply (groupcollide_true _ _ (bird w) t); [left; reflexivity | exact Ht |].
  apply (collide_mask_full (bird w) t); [intros; reflexivity | intros; reflexivity |].
  unfold rect_overlap. simpl. consts. lia.
Qed.

End NoFlap.

(** ** Witnesses: the theorems at concrete inputs *)
Section Witnesses.
#[local] Existing Instance opaque_assets.
#[local] Existing Instance opaque_assets_wf.

Lemma flap_forever_witness :
  mask_w bird_upflap <= 80 /\ mask_h bird_upflap <= 80 /\
  fst (Nat.iter 100 (tick [KEYDOWN K_SPACE]) (tick [KEYDOWN K_SPACE] (start (7 : Z)))) = Playing.
Proof.
  split; [simpl; lia |]. split; [simpl; lia |].
  apply flap_forever; simpl; lia.
Defined.

Lemma reachable_inv_witness :
  star step (start (7 : Z)) (tick [KEYDOWN K_SPACE] (start 7)) /\
  state_inv (tick [KEYDOWN K_SPACE] (start (7 : Z))).
Proof.
  assert (Hs : star step (start (7 : Z)) (tick [KEYDOWN K_SPACE] (start 7))).
  { eapply star_step; [apply step_tick; reflexivity | apply star_refl]. }
  split; [exact Hs | exact (reachable_inv 7 _ Hs)].
Defined.

(** The world of the crash frame of [no_flap_lands]. *)
Definition crash_world : @World Z :=
  snd (Nat.iter 22 (tick []) (tick [KEYDOWN K_SPACE] (start (7 : Z)))).


Lemma ground_contact_collides_witness :
  ground_inv (grounds crash_world) /\
  0 <= Bird.bird_x (bird crash_world) <= SCREEN_WIDTH - 34 /\
  SCREEN_HEIGHT - GROUND_HEIGHT < Bird.bird_y (bird crash_world) + 24 /\
  Bird.bird_y (bird crash_world) < SCREEN_HEIGHT /\
  collides crash_world = true.
Proof.
  assert (Hg : ground_inv (grounds crash_world))
    by (apply (@bool_decide_unpack _ (ground_inv_dec (grounds crash_world))); vm_compute; exact I).
  assert (Hx : 0 <= Bird.bird_x (bird crash_world) <= SCREEN_WIDTH - 34)
    by (vm_compute; split; discriminate).
  assert (Hy1 : SCREEN_HEIGHT - GROUND_HEIGHT < Bird.bird_y (bird crash_world) + 24)
    by (vm_compute; reflexivity).
  assert (Hy2 : Bird.bird_y (bird crash_world) < SCREEN_HEIGHT) by (vm_compute; reflexivity).
  refine (conj Hg (conj Hx (conj Hy1 (conj Hy2 _)))).
  exact (ground_contact_collides crash_world Hg Hx Hy1 Hy2).
Defined.

Lemma tick_quit_witness :
  running (fst (start (7 : Z))) = true /\ QUIT ∈ [QUIT] /\
  fst (tick [QUIT] (start (7 : Z))) = Raised NameError.
Proof.
  assert (Hr : running (fst (start (7 : Z))) = true) by (vm_compute; reflexivity).
  assert (Hq : QUIT ∈ [QUIT]) by (apply (bool_decide_unpack _); vm_compute; exact I).
  split; [exact Hr |]. split; [exact Hq | exact (tick_quit [QUIT] (start 7) Hr Hq)].
Defined.

(** A world of the main loop: the start-up state with the draws 107 and
    271. *)
Definition playing_world : @World Z :=
  mkWorld Bird.init initial_grounds (sprites_of [mkGate 800 107; mkGate 1200 271]) 7 [].

Lemma playing_frame_cues_witness :
  let evs := [KEYDOWN K_SPACE; OTHER_EVENT; KEYDOWN K_UP] in
  state_inv (Playing, playing_world) /\ QUIT ∉ evs /\
  cues (snd (playing_frame evs playing_world)) =
  cues playing_world ++ repeat WING (count_flaps evs) ++
  (if decide (fst (playing_frame evs playing_world) = Crashed) then [HIT] else []).
Proof.
  intros evs.
  assert (Hi : state_inv (Playing, playing_world)).
  { split; [reflexivity |]. split; [apply (bool_decide_unpack _); vm_compute; exact I |].
    split; [| intros e He; discriminate].
    exists [mkGate 800 107; mkGate 1200 271]. split; [reflexivity |].
    apply (bool_decide_unpack _); vm_compute; exact I. }
  assert (Hq : QUIT ∉ evs) by (apply (bool_decide_unpack _); vm_compute; exact I).
  split; [exact Hi |]. split; [exact Hq | exact (playing_frame_cues evs playing_world Hi Hq)].
Defined.


Lemma welcome_leaves_on_flap_witness :
  let w := snd (start (7 : Z)) in
  fst (welcome_frame [KEYDOWN K_UP] w) = Playing /\
  count_flaps [KEYDOWN K_UP] <> 0%nat /\ QUIT ∉ [KEYDOWN K_UP] /\
  Bird.speed2 (bird (snd (welcome_frame [KEYDOWN K_UP] w))) = (- (2 * BIRD_SPEED)).
Proof.
  intros w. assert (Hp : fst (welcome_frame [KEYDOWN K_UP] w) = Playing)
    by (vm_compute; reflexivity).
  split; [exact Hp | exact (welcome_leaves_on_flap [KEYDOWN K_UP] w Hp)].
Defined.

End Witnesses.
