(* ===== verification/FbConfig.v ===== *)
(** * Constants and sprite sizes of [src/unnamed/part_000] ("flappy bird.py")

    The module-level constants (lines 7-11) and, as the class
    [FbSprites], the sizes of the images the game logic reads through
    [get_width()] and [get_height()]: the player ['c.png'], the pipe
    ['a.png'] (its rotated copy [GAME_SPRITES['pipe'][0]] has the same
    size, a rotation by 180 degrees keeping both sides), the base ['d.png']
    and the background ['b.png'].  The image files are not part of the
    repository, so the sizes are parameters of every theorem. *)

From Stdlib Require Import ZArith QArith Lia.
From stdpp Require Import base.
From S2P Require Import Prelude PyNum.
Open Scope Z_scope.

Definition FPS : Z := 50.
Definition SCREENWIDTH : Z := 578.
Definition SCREENHEIGHT : Z := 511.
(** [GROUNDY = SCREENHEIGHT * 0.8], a float. *)
Definition GROUNDY : PyNum := py_mul (PInt SCREENHEIGHT) (PFloat (8 # 10)).

(** [get_width()] / [get_height()] of the images the logic reads. *)
Class FbSprites := {
  player_w : Z;
  player_h : Z;
  pipe_w : Z;
  pipe_h : Z;
  base_h : Z;
  bg_w : Z
}.

(** A surface's sizes are not negative; the background used by the
    scrolling is not empty. *)
Class FbSpritesWf `{FbSprites} := {
  player_w_nonneg : 0 <= player_w;
  player_h_nonneg : 0 <= player_h;
  pipe_w_nonneg : 0 <= pipe_w;
  pipe_h_nonneg : 0 <= pipe_h;
  base_h_nonneg : 0 <= base_h;
  bg_w_pos : 0 < bg_w
}.

(** The value of [GROUNDY]. *)
Lemma GROUNDY_val : (to_Q GROUNDY == 2044 # 5)%Q.
Proof. reflexivity. Qed.

(** A concrete set of sizes for the witnesses: a 34 x 30 player, a
    52 x 320 pipe, a 336 x 112 base and a 578-pixel background. *)
Definition sample_sprites : FbSprites := {|
  player_w := 34; player_h := 30; pipe_w := 52; pipe_h := 320; base_h := 112; bg_w := 578
|}.

Lemma sample_sprites_wf : @FbSpritesWf sample_sprites.
Proof. split; cbn; lia. Qed.
