(* ===== verification/FbPlayer.v ===== *)
(** * The player of [src/unnamed/part_000]: flap, gravity and the ground clamp

    [mainGame] keeps the player in local variables: [playerx] (fixed at
    [int(SCREENWIDTH / 5)]), [playery], [playerVelY] and [playerFlapped]
    (lines 40-41, 55-59).  Per frame it applies, in this order, the flap
    of each flap key (lines 69-73, only while [playery > 0]), the gravity
    (lines 85-88, up to [playerMaxVelY]) and the move (lines 89-90), which
    is clamped so that the bird stops on the ground: [playery + min(
    playerVelY, GROUNDY - playery - playerHeight)].

    [playery] is a [PyNum]: an [int] until the first clamp, a [float]
    from then on ([GROUNDY] is a float).

    Theorems: the speed stays in [[-20, 10]]; after any move the bird is
    above the ground; the height turns into a float exactly at a clamp and
    stays one; a bird resting on the ground stays there until it flaps. *)

From Stdlib Require Import ZArith QArith Qminmax Lia Lqa.
From stdpp Require Import base.
From S2P Require Import Prelude PyNum FbConfig.
Open Scope Z_scope.

Module Player.

Definition playerVelY0 : Z := -20.
Definition playerMaxVelY : Z := 10.
Definition playerAccY : Z := 1.
Definition playerFlapAccv : Z := -10.

(** [playerx = int(SCREENWIDTH / 5)]. *)
Definition playerx : Z := py_int (py_truediv (PInt SCREENWIDTH) (PInt 5)).

Record Player := mkPlayer {
  playery : PyNum;
  playerVelY : Z;
  playerFlapped : bool
}.

(** Lines 41, 55, 59: [playery = int(SCREENWIDTH / 2)]. *)
Definition init : Player := {|
  playery := PInt (py_int (py_truediv (PInt SCREENWIDTH) (PInt 2)));
  playerVelY := playerVelY0;
  playerFlapped := false
|}.

(** Lines 70-73, for one flap key: the flap only acts below the top of
    the window; the boolean says whether the wing sound starts. *)
Definition flap (p : Player) : Player * bool :=
  if py_lt (PInt 0) (playery p) then
    ({| playery := playery p; playerVelY := playerFlapAccv; playerFlapped := true |}, true)
  else (p, false).

(** Lines 85-88. *)
Definition gravity (p : Player) : Player :=
  {| playery := playery p;
     playerVelY := if (playerVelY p <? playerMaxVelY) && negb (playerFlapped p)
                   then playerVelY p + playerAccY else playerVelY p;
     playerFlapped := false |}.

Section Move.
Context `{FbSprites}.

(** Lines 89-90. *)
Definition move (p : Player) : Player :=
  {| playery := py_add (playery p)
                  (py_min (PInt (playerVelY p))
                          (py_sub (py_sub GROUNDY (playery p)) (PInt player_h)));
     playerVelY := playerVelY p;
     playerFlapped := playerFlapped p |}.

(** The room left below the bird. *)
Definition room (p : Player) : Q := (to_Q GROUNDY - to_Q (playery p) - inject_Z player_h)%Q.

End Move.

(** The speed bounds. *)
Definition vel_ok (p : Player) : Prop := -20 <= playerVelY p <= 10.

#[export] Instance vel_ok_dec p : Decision (vel_ok p).
Proof. unfold vel_ok. apply _. Defined.

(** ** Lemmas *)

Lemma vel_ok_init : vel_ok init.
Proof. unfold vel_ok, init, playerVelY0; cbn; lia. Qed.

Lemma vel_ok_flap p : vel_ok p -> vel_ok (fst (flap p)).
Proof. unfold vel_ok, flap. destruct (py_lt _ _); cbn; unfold playerFlapAccv; lia. Qed.

Lemma vel_ok_gravity p : vel_ok p -> vel_ok (gravity p).
Proof.
  unfold vel_ok, gravity; cbn. unfold playerMaxVelY, playerAccY.
  destruct (Z.ltb_spec (playerVelY p) 10), (playerFlapped p); cbn; lia.
Qed.

Section Props.
Context `{FbSprites}.

(** The value after a move. *)
Lemma move_value p :
  (to_Q (playery (move p)) == to_Q (playery p) + Qmin (inject_Z (playerVelY p)) (room p))%Q.
Proof.
  unfold move, room. cbn [playery playerVelY]. rewrite to_Q_add.
  unfold py_min. destruct (py_lt _ _) eqn:E.
  - apply py_lt_spec in E. rewrite !to_Q_sub in *. cbn [to_Q] in *.
    rewrite Q.min_r by (apply Qlt_le_weak; exact E). reflexivity.
  - apply py_lt_false in E. rewrite !to_Q_sub in *. cbn [to_Q] in *.
    rewrite Q.min_l by exact E. reflexivity.
Qed.

(** The clamp: a move never takes the bird below the ground. *)
Lemma move_above_ground p : (to_Q (playery (move p)) + inject_Z player_h <= to_Q GROUNDY)%Q.
Proof.
  rewrite move_value. unfold room.
  pose proof (Q.le_min_r (inject_Z (playerVelY p))
                (to_Q GROUNDY - to_Q (playery p) - inject_Z player_h)). lra.
Qed.

(** The type of the height after a move: an [int] exactly when it was
    one and the move was not clamped (the speed fits in the room left). *)
Lemma move_is_int p :
  is_int (playery (move p)) = is_int (playery p) && Qle_bool (inject_Z (playerVelY p)) (room p).
Proof.
  unfold move, room. cbn [playery]. rewrite is_int_add. unfold py_min.
  destruct (playery p) as [y | y]; [| reflexivity]. cbn [andb].
  destruct (py_lt _ _) eqn:E; cbn [is_int andb].
  - apply py_lt_spec in E. rewrite !to_Q_sub in E. cbn [to_Q] in *.
    symmetry. apply not_true_iff_false. rewrite Qle_bool_iff. intros Hle. lra.
  - apply py_lt_false in E. rewrite !to_Q_sub in E. cbn [to_Q] in *.
    symmetry. apply Qle_bool_iff. exact E.
Qed.

(** Once a float, always a float. *)
Lemma move_float_stays p : is_int (playery p) = false -> is_int (playery (move p)) = false.
Proof. intros E. rewrite move_is_int, E. reflexivity. Qed.

(** A bird resting on the ground with a non-negative speed stays there. *)
Lemma move_rest p :
  room p == 0 -> (0 <= playerVelY p)%Z -> to_Q (playery (move p)) == to_Q (playery p).
Proof.
  intros Hr Hv. rewrite move_value, Hr.
  assert (Hz : (0 <= inject_Z (playerVelY p))%Q) by (change 0%Q with (inject_Z 0); rewrite <- Zle_Qle; exact Hv).
  rewrite Q.min_r by exact Hz. ring.
Qed.

End Props.

Section Claims.
Context `{FbSprites}.

(** C31. The type of [playery] along the frames of [mainGame]: after a
    move it is an [int] exactly when it was one and the speed fitted in
    the room above the ground (no clamp); once a float, it stays a float
    for every later frame. *)
Theorem height_type p :
  (is_int (playery (move p)) = true <->
   is_int (playery p) = true /\ (inject_Z (playerVelY p) <= room p)%Q) /\
  (is_int (playery p) = false ->
   forall k, is_int (playery (Nat.iter k (fun q => move (gravity q)) p)) = false).
Proof.
  split.
  - rewrite move_is_int, andb_true_iff, Qle_bool_iff. reflexivity.
  - intros E k. induction k as [| k IH]; [exact E |].
    rewrite Nat.iter_succ. apply move_float_stays. exact IH.
Qed.

End Claims.

End Player.
