(* ===== verification/FbPipes.v ===== *)
(** * The pipes of [src/unnamed/part_000]: [getRandomPipe] and the pipe lists

    A pipe is a dictionary [{'x': ..., 'y': ...}] ([PipeDict]); [mainGame]
    keeps the upper and the lower pipes in two parallel lists.  Per frame
    (lines 91-100) it moves every pair by [pipeVelX = -3] (a [zip], so
    only pairs move), adds a new pair when the first upper pipe is in
    [(0, 3.8)], and drops the first pair once it is past [-pipe width].
    [getRandomPipe(gap)] (lines 143-153) draws the opening with
    [random.randrange(0, int(SCREENHEIGHT - base height - 1.2 * offset))],
    which raises [ValueError] on an empty range; [offset =
    SCREENHEIGHT / 3 - gap] is the height of the opening.  [gap] grows by
    [0.09] per frame while it is below [55] (lines 114-115).

    The [x] of a pipe is always integral (778, [SCREENWIDTH + 200 +
    SCREENWIDTH / 2 = 1067.0], 588, then steps of [-3]) and is kept as an
    integer; [y] is a float and is kept as a rational.

    Theorems: the opening of every pair is exactly [offset] high and
    starts at the drawn number; [getRandomPipe] raises exactly when the
    range is empty and never for a base up to 305 pixels high; the gap
    after [k] frames is [0.09 * min(k, 612)], so the opening never gets
    below [511/3 - 55.08]. *)

From Stdlib Require Import ZArith QArith Qminmax Qreduction Lia Lqa.
From stdpp Require Import base list.
From S2P Require Import Prelude PyNum FbConfig Random.
Open Scope Z_scope.

Record PipeDict := mkPipeDict { px : Z; py : Q }.

Definition pipeVelX : Z := -3.

(** [offset = (SCREENHEIGHT / 3) - gap]. *)
Definition offset (gap : Q) : Q := (inject_Z SCREENHEIGHT / 3 - gap)%Q.

(** The argument of [randrange]:
    [int(SCREENHEIGHT - base height - 1.2 * offset)]. *)
Definition rand_stop `{FbSprites} (gap : Q) : Z :=
  py_int (PFloat (inject_Z SCREENHEIGHT - inject_Z base_h - (12 # 10) * offset gap)%Q).

Section Gen.
Context `{FbSprites} {Σ : Type} `{RandomSource Σ}.

(** [getRandomPipe(gap)]: the upper pipe first, then the lower one. *)
Definition getRandomPipe (gap : Q) (s : Σ) : (PipeDict * PipeDict * Σ) + PyExc :=
  match randrange s 0 (rand_stop gap) with
  | inr e => inr e
  | inl (r, s') =>
      let pipeHeight := inject_Z pipe_h in
      let y2 := (offset gap + inject_Z r)%Q in
      let pipeX := SCREENWIDTH + 10 in
      let y1 := (pipeHeight - y2 + offset gap)%Q in
      inl (mkPipeDict pipeX (- y1)%Q, mkPipeDict pipeX y2, s')
  end.

(** The two lists, upper and lower. *)
Record Pipes := mkPipes { upperPipes : list PipeDict; lowerPipes : list PipeDict }.

(** Lines 43-53: two pairs drawn with [gap = 0]; only their [y] is kept,
    the [x] are [SCREENWIDTH + 200] and [SCREENWIDTH + 200 +
    SCREENWIDTH / 2]. *)
Definition initial_pipes (s : Σ) : (Pipes * Σ) + PyExc :=
  match getRandomPipe 0 s with
  | inr e => inr e
  | inl (u1, l1, s1) =>
      match getRandomPipe 0 s1 with
      | inr e => inr e
      | inl (u2, l2, s2) =>
          let x1 := SCREENWIDTH + 200 in
          let x2 := SCREENWIDTH + 200 + SCREENWIDTH / 2 in
          inl (mkPipes [mkPipeDict x1 (py u1); mkPipeDict x2 (py u2)]
                       [mkPipeDict x1 (py l1); mkPipeDict x2 (py l2)], s2)
      end
  end.

Definition shift (p : PipeDict) : PipeDict := mkPipeDict (px p + pipeVelX) (py p).

(** Lines 91-93: [for upperPipe, lowerPipe in zip(upperPipes, lowerPipes)]. *)
Fixpoint move_zip (us ls : list PipeDict) : list PipeDict * list PipeDict :=
  match us, ls with
  | u :: us', l :: ls' =>
      let '(us'', ls'') := move_zip us' ls' in (shift u :: us'', shift l :: ls'')
  | _, _ => (us, ls)
  end.

Definition move_pipes (ps : Pipes) : Pipes :=
  let '(us, ls) := move_zip (upperPipes ps) (lowerPipes ps) in mkPipes us ls.

(** Lines 94-97: [if 0 < upperPipes[0]['x'] < 3.8]. *)
Definition spawn (gap : Q) (ps : Pipes) (s : Σ) : (Pipes * Σ) + PyExc :=
  match upperPipes ps with
  | [] => inr IndexError
  | u :: _ =>
      if (0 <? px u) && negb (Qle_bool (38 # 10) (inject_Z (px u))) then
        match getRandomPipe gap s with
        | inr e => inr e
        | inl (nu, nl, s') => inl (mkPipes (upperPipes ps ++ [nu]) (lowerPipes ps ++ [nl]), s')
        end
      else inl (ps, s)
  end.

(** Lines 98-100: [if upperPipes[0]['x'] < -pipe width], pop both heads. *)
Definition prune (ps : Pipes) : Pipes + PyExc :=
  match upperPipes ps with
  | [] => inr IndexError
  | u :: us =>
      if px u <? - pipe_w then
        match lowerPipes ps with
        | [] => inr IndexError
        | _ :: ls => inl (mkPipes us ls)
        end
      else inl ps
  end.

(** The pipe part of one frame: move, spawn, prune. *)
Definition pipes_frame (gap : Q) (ps : Pipes) (s : Σ) : (Pipes * Σ) + PyExc :=
  match spawn gap (move_pipes ps) s with
  | inr e => inr e
  | inl (ps', s') =>
      match prune ps' with
      | inr e => inr e
      | inl ps'' => inl (ps'', s')
      end
  end.

End Gen.

(** Lines 114-115. *)
Definition gap_step (gap : Q) : Q :=
  if negb (Qle_bool 55 gap) then Qred (gap + (9 # 100)) else gap.

#[export] Instance gap_step_proper : Proper (Qeq ==> Qeq) gap_step.
Proof.
  intros a b E. unfold gap_step.
  destruct (Qle_bool 55 a) eqn:Ea, (Qle_bool 55 b) eqn:Eb; cbn [negb].
  - exact E.
  - apply Qle_bool_iff in Ea. apply not_true_iff_false in Eb.
    exfalso. apply Eb, Qle_bool_iff. rewrite <- E. exact Ea.
  - apply Qle_bool_iff in Eb. apply not_true_iff_false in Ea.
    exfalso. apply Ea, Qle_bool_iff. rewrite E. exact Eb.
  - rewrite E. reflexivity.
Qed.

(** The gap after [k] frames, in closed form. *)
Definition gap_after (k : nat) : Q := ((9 # 100) * inject_Z (Z.of_nat (Nat.min k 612)))%Q.

(** ** Lemmas *)

Lemma inject_Z_S k : (inject_Z (Z.of_nat (S k)) == inject_Z (Z.of_nat k) + 1)%Q.
Proof. rewrite Nat2Z.inj_succ, <- Z.add_1_r, inject_Z_plus. reflexivity. Qed.

Lemma inject_Z_le_nat (k n : nat) : (k <= n)%nat -> (inject_Z (Z.of_nat k) <= inject_Z (Z.of_nat n))%Q.
Proof. intros Hk. rewrite <- Zle_Qle. lia. Qed.

(** One frame of the gap, on the closed form. *)
Lemma gap_step_after k : (gap_step (gap_after k) == gap_after (S k))%Q.
Proof.
  unfold gap_step, gap_after. destruct (Nat.le_gt_cases 612 k) as [Hk | Hk].
  - rewrite !Nat.min_r by lia. cbn. reflexivity.
  - rewrite !Nat.min_l by lia.
    pose proof (inject_Z_le_nat k 611 ltac:(lia)) as Hb.
    destruct (Qle_bool 55 _) eqn:E.
    + apply Qle_bool_iff in E. exfalso.
      assert (Hc : (inject_Z (Z.of_nat 611) == 611)%Q) by reflexivity. lra.
    + cbn [negb]. rewrite Qred_correct, inject_Z_S. lra.
Qed.

Lemma gap_after_bounds k : (0 <= gap_after k <= 5508 # 100)%Q.
Proof.
  unfold gap_after. pose proof (inject_Z_le_nat _ _ (Nat.le_min_r k 612)) as Hb.
  pose proof (inject_Z_le_nat 0 _ (Nat.le_0_l (Nat.min k 612))) as H0.
  change (inject_Z (Z.of_nat 0)) with 0%Q in H0.
  assert (Hc : (inject_Z (Z.of_nat 612) == 612)%Q) by reflexivity. lra.
Qed.

Section GenProps.
Context `{FbSprites} {Σ : Type} `{RandomSource Σ}.

(** What a successful draw returns: both pipes at [SCREENWIDTH + 10],
    the upper pipe ending at the drawn number [r], and the lower one
    starting [offset] below. *)
Lemma getRandomPipe_inl gap s u l s' :
  getRandomPipe gap s = inl (u, l, s') ->
  exists r, 0 <= r < rand_stop gap /\
    px u = SCREENWIDTH + 10 /\ px l = SCREENWIDTH + 10 /\
    (py u + inject_Z pipe_h == inject_Z r)%Q /\
    (py l == offset gap + inject_Z r)%Q.
Proof.
  unfold getRandomPipe. destruct (randrange s 0 (rand_stop gap)) as [[r s1] | e] eqn:E;
    [| discriminate].
  intros Hr. injection Hr as <- <- <-.
  destruct (Z.lt_ge_cases 0 (rand_stop gap)) as [Hp | Hp];
    [| rewrite randrange_empty in E by lia; discriminate].
  destruct (randrange_ok s 0 (rand_stop gap) Hp) as (r' & s2 & E' & Hr').
  rewrite E' in E. injection E as <- <-.
  exists r'. cbn [px py]. split; [exact Hr' |]. split; [reflexivity |]. split; [reflexivity |].
  split; [lra | reflexivity].
Qed.

(** [getRandomPipe] raises exactly on an empty range, and then raises
    [ValueError]. *)
Lemma getRandomPipe_inr gap s e :
  getRandomPipe gap s = inr e <-> rand_stop gap <= 0 /\ e = ValueError.
Proof.
  unfold getRandomPipe. split.
  - destruct (randrange s 0 (rand_stop gap)) as [[r s1] | e'] eqn:E; [discriminate |].
    intros Hr. injection Hr as <-. unfold randrange in E.
    destruct (Z.ltb_spec 0 (rand_stop gap - 0)) as [Hp | Hp];
      [destruct (randbelow s _); discriminate |].
    injection E as <-. split; [lia | reflexivity].
  - intros [Hs ->]. rewrite randrange_empty by lia. reflexivity.
Qed.

End GenProps.

(** The float given to [int()] in [rand_stop]. *)
Lemma rand_stop_arg `{FbSprites} gap :
  (inject_Z SCREENHEIGHT - inject_Z base_h - (12 # 10) * offset gap ==
   (3066 # 10) - inject_Z base_h + (12 # 10) * gap)%Q.
Proof. unfold offset, SCREENHEIGHT. cbn [inject_Z]. field. Qed.

(** With a base up to 305 pixels high the range is never empty. *)
Lemma rand_stop_pos `{FbSprites} gap :
  base_h <= 305 -> (0 <= gap)%Q -> 1 <= rand_stop gap.
Proof.
  intros Hb Hg. unfold rand_stop.
  assert (Hq : (inject_Z 305 >= inject_Z base_h)%Q) by (rewrite <- Zle_Qle; exact Hb).
  assert (E305 : (inject_Z 305 == 305)%Q) by reflexivity.
  apply py_int_ge; rewrite rand_stop_arg; change (inject_Z 1) with 1%Q; lra.
Qed.

(** With a base of 307 pixels or more the first draw has an empty range. *)
Lemma rand_stop_empty `{FbSprites} : 307 <= base_h -> rand_stop 0 <= 0.
Proof.
  intros Hb. unfold rand_stop. apply py_int_neg. rewrite rand_stop_arg.
  assert (Hq : (inject_Z 307 <= inject_Z base_h)%Q) by (rewrite <- Zle_Qle; exact Hb).
  assert (E307 : (inject_Z 307 == 307)%Q) by reflexivity. lra.
Qed.

Section ListProps.
Context `{FbSprites} {Σ : Type} `{RandomSource Σ}.

(** With a base up to 305 pixels high and a non-negative gap, a draw
    never fails. *)
Lemma getRandomPipe_ok gap s :
  base_h <= 305 -> (0 <= gap)%Q ->
  exists u l s', getRandomPipe gap s = inl (u, l, s') /\
    px u = SCREENWIDTH + 10 /\ px l = SCREENWIDTH + 10.
Proof.
  intros Hb Hg. pose proof (rand_stop_pos gap Hb Hg) as Hp.
  destruct (randrange_ok s 0 (rand_stop gap)) as (r & s' & E & _); [lia |].
  unfold getRandomPipe. rewrite E. do 3 eexists. split; [reflexivity | split; reflexivity].
Qed.

(** [zip] moves every pair of two lists of the same length. *)
Lemma move_zip_map us ls :
  length us = length ls -> move_zip us ls = (map shift us, map shift ls).
Proof.
  revert ls. induction us as [| u us IH]; intros [| l ls] Hlen; cbn in Hlen; try discriminate.
  - reflexivity.
  - cbn. rewrite IH by lia. reflexivity.
Qed.

Lemma move_pipes_map us ls :
  map px ls = map px us -> move_pipes (mkPipes us ls) = mkPipes (map shift us) (map shift ls).
Proof.
  intros E. unfold move_pipes. cbn.
  rewrite move_zip_map; [reflexivity |].
  rewrite <- (length_map px us), <- (length_map px ls), E. reflexivity.
Qed.

End ListProps.

(** [0 < x < 3.8] on an integral [x]. *)
Lemma spawn_window x :
  (0 <? x) && negb (Qle_bool (38 # 10) (inject_Z x)) = (1 <=? x) && (x <=? 3).
Proof.
  unfold Qle_bool. cbn -[Z.mul]. rewrite Z.mul_1_r.
  destruct (Z.ltb_spec 0 x), (Z.leb_spec 38 (x * 10)), (Z.leb_spec 1 x), (Z.leb_spec x 3);
    cbn; lia.
Qed.

(** The spacing between a pipe at [x] and the next one.  The first two
    pipes start at 778 and 1067, the others at 588; a new pipe comes
    when the first one reaches 1, 2 or 3, whichever its residue modulo
    3 makes it meet, so the spacings are 289, 298, then 288 and 297 in
    turn. *)
Definition spacing_ok (x s : Z) : Prop :=
  (x mod 3 = 1 /\ s = 289) \/ (x mod 3 = 2 /\ s = 298) \/
  (x mod 3 = 0 /\ (s = 288 \/ s = 297)).

(** The pipe lists after a frame: the lower pipes stand under the upper
    ones; either two pairs, the first not yet at the spawn window, or
    three pairs, the first past the spawn window but not yet dropped. *)
Definition pipes_inv `{FbSprites} (ps : Pipes) : Prop :=
  map px (lowerPipes ps) = map px (upperPipes ps) /\
  match map px (upperPipes ps) with
  | [a; b] => 4 <= a /\ spacing_ok a (b - a)
  | [a; b; c] => - pipe_w <= a <= 3 /\ spacing_ok a (b - a) /\ spacing_ok b (c - b)
  | _ => False
  end.

#[export] Instance pipes_inv_dec `{FbSprites} ps : Decision (pipes_inv ps).
Proof.
  unfold pipes_inv, spacing_ok.
  destruct (map px (upperPipes ps)) as [| a [| b [| c [|]]]]; apply _.
Defined.

Section InvProps.
Context `{FbSprites} {Σ : Type} `{RandomSource Σ}.

Lemma spacing_step a b :
  1 <= a <= 3 -> spacing_ok (a + 3) (b - a) -> spacing_ok b (SCREENWIDTH + 10 - b).
Proof. unfold spacing_ok, SCREENWIDTH. intros Ha Hs. zmod_solve. Qed.

(** Every frame of the pipe lists keeps the invariant and never raises,
    for a pipe at most 281 pixels wide and a base at most 305 high. *)
Lemma pipes_frame_inv gap ps s :
  base_h <= 305 -> 0 <= pipe_w <= 281 -> (0 <= gap)%Q -> pipes_inv ps ->
  exists ps' s', pipes_frame gap ps s = inl (ps', s') /\ pipes_inv ps'.
Proof.
  intros Hb Hw Hg [Hl Hs]. destruct ps as [us ls]. cbn [upperPipes lowerPipes] in *.
  unfold pipes_frame. rewrite (move_pipes_map us ls Hl).
  destruct us as [| u1 [| u2 [| u3 [|]]]]; cbn in Hs; try contradiction;
    destruct ls as [| l1 [| l2 [| l3 [|]]]]; cbn in Hl; try discriminate;
    injection Hl as; unfold spawn, prune; cbn [upperPipes lowerPipes map shift px];
    rewrite spawn_window; unfold pipeVelX.
  - destruct (Z.leb_spec 1 (px u1 + -3)), (Z.leb_spec (px u1 + -3) 3); cbn [andb].
    + destruct (getRandomPipe_ok gap s Hb Hg) as (nu & nl & s' & -> & Hu & Hl').
      cbn [app px upperPipes lowerPipes shift]. unfold pipeVelX. destruct (Z.ltb_spec (px u1 + -3) (- pipe_w)); [lia |].
      do 2 eexists. split; [reflexivity |]. unfold pipes_inv; cbn; unfold pipeVelX. rewrite Hu, Hl'.
      split; [congruence |]. split; [lia |]. split.
      * unfold spacing_ok in *. zmod_solve.
      * apply (spacing_step (px u1 + -3)); [lia |]. replace (px u1 + -3 + 3) with (px u1) by lia.
        replace (px u2 + -3 - (px u1 + -3)) with (px u2 - px u1) by lia. apply Hs.
    + cbn [px upperPipes lowerPipes shift]. unfold pipeVelX.
      destruct (Z.ltb_spec (px u1 + -3) (- pipe_w)); [lia |].
      do 2 eexists. split; [reflexivity |]. unfold pipes_inv; cbn; unfold pipeVelX.
      split; [congruence |]. split; [lia |]. unfold spacing_ok in *. zmod_solve.
    + lia.
    + lia.
  - destruct (Z.leb_spec 1 (px u1 + -3)); [lia |]. cbn [andb].
    cbn [px upperPipes lowerPipes shift]. unfold pipeVelX.
    destruct (Z.ltb_spec (px u1 + -3) (- pipe_w)).
    + do 2 eexists. split; [reflexivity |]. unfold pipes_inv; cbn; unfold pipeVelX.
      split; [congruence |]. unfold spacing_ok in *. split; [zmod_solve | zmod_solve].
    + do 2 eexists. split; [reflexivity |]. unfold pipes_inv; cbn; unfold pipeVelX.
      split; [congruence |]. unfold spacing_ok in *. split; [lia |]. split; zmod_solve.
Qed.

End InvProps.

Section Runs.
Context `{FbSprites} {Σ : Type} `{RandomSource Σ}.

(** [k] frames of the pipe lists from a gap and a state: the pipe part
    of the frame with the current gap, then the gap update. *)
Fixpoint pipes_run (k : nat) (gap : Q) (ps : Pipes) (s : Σ) : (Pipes * Σ) + PyExc :=
  match k with
  | O => inl (ps, s)
  | S k' =>
      match pipes_frame gap ps s with
      | inr e => inr e
      | inl (ps', s') => pipes_run k' (gap_step gap) ps' s'
      end
  end.

Lemma initial_pipes_ok s :
  base_h <= 305 -> exists ps s', initial_pipes s = inl (ps, s') /\ pipes_inv ps.
Proof.
  intros Hb. unfold initial_pipes.
  destruct (getRandomPipe_ok 0 s Hb (Qle_refl 0)) as (u1 & l1 & s1 & -> & _ & _).
  destruct (getRandomPipe_ok 0 s1 Hb (Qle_refl 0)) as (u2 & l2 & s2 & -> & _ & _).
  do 2 eexists. split; [reflexivity |].
  apply (bool_decide_unpack _). vm_compute. reflexivity.
Qed.

Lemma gap_step_nonneg g : (0 <= g)%Q -> (0 <= gap_step g)%Q.
Proof.
  intros Hg. unfold gap_step.
  destruct (Qle_bool 55 g); cbn [negb]; [exact Hg | rewrite Qred_correct; lra].
Qed.

Lemma gap_iter_nonneg k : (0 <= Nat.iter k gap_step 0)%Q.
Proof.
  induction k as [| k IH]; [apply Qle_refl |]. rewrite Nat.iter_succ. apply gap_step_nonneg, IH.
Qed.

Lemma pipes_run_inv k j ps s :
  base_h <= 305 -> 0 <= pipe_w <= 281 -> pipes_inv ps ->
  exists ps' s', pipes_run k (Nat.iter j gap_step 0%Q) ps s = inl (ps', s') /\ pipes_inv ps'.
Proof.
  intros Hb Hw. revert j ps s. induction k as [| k IH]; intros j ps s Hi.
  - eauto.
  - cbn [pipes_run].
    destruct (pipes_frame_inv (Nat.iter j gap_step 0%Q) ps s Hb Hw (gap_iter_nonneg j) Hi)
      as (ps1 & s1 & -> & Hi1).
    exact (IH (S j) ps1 s1 Hi1).
Qed.

End Runs.

Lemma gap_iter_closed k : (Nat.iter k gap_step 0%Q == gap_after k)%Q.
Proof.
  induction k as [| k IH]; [reflexivity |].
  rewrite Nat.iter_succ, IH. apply gap_step_after.
Qed.

Lemma pipes_inv_length `{FbSprites} ps :
  pipes_inv ps -> (2 <= length (upperPipes ps) <= 3)%nat /\ length (lowerPipes ps) = length (upperPipes ps).
Proof.
  intros [Hl Hs]. rewrite <- (length_map px (lowerPipes ps)), Hl, <- (length_map px (upperPipes ps)).
  destruct (map px (upperPipes ps)) as [| a [| b [| c [|]]]]; cbn in *; try contradiction; lia.
Qed.

(** ** Properties *)
Section Props.
Context `{FbSprites} {Σ : Type} `{RandomSource Σ}.

(** C18. Every pair [getRandomPipe] returns stands at [SCREENWIDTH + 10];
    the upper pipe ends at the drawn number, inside the window, and the
    lower one starts exactly [offset = SCREENHEIGHT / 3 - gap] below it. *)
Theorem getRandomPipe_opening gap s u l s' :
  getRandomPipe gap s = inl (u, l, s') ->
  px u = SCREENWIDTH + 10 /\ px l = SCREENWIDTH + 10 /\
  (py l - (py u + inject_Z pipe_h) == offset gap)%Q /\ (0 <= py u + inject_Z pipe_h)%Q.
Proof.
  intros E. destruct (getRandomPipe_inl gap s u l s' E) as (r & Hr & Hu & Hl & Eu & El).
  split; [exact Hu |]. split; [exact Hl |]. rewrite Eu, El.
  assert (Hr0 : (0 <= inject_Z r)%Q) by (change 0%Q with (inject_Z 0); rewrite <- Zle_Qle; lia).
  split; [ring | exact Hr0].
Qed.

(** C19. The gap after [k] frames is [0.09 * min(k, 612)]: it stops at
    55.08, and the opening of a new pair is never below 115 pixels. *)
Theorem gap_schedule k :
  (Nat.iter k gap_step 0%Q == gap_after k)%Q /\ (115 < offset (Nat.iter k gap_step 0%Q))%Q.
Proof.
  pose proof (gap_iter_closed k) as E. split; [exact E |].
  unfold offset. rewrite E. pose proof (gap_after_bounds k).
  assert (Hs : (inject_Z SCREENHEIGHT / 3 == 511 # 3)%Q) by reflexivity. lra.
Qed.

(** C20. With a pipe at most 281 pixels wide and a base at most 305
    high, the game's pipe lists never raise: the two draws at the start
    succeed, and after any number of frames the lists hold two or three
    pairs, the lower pipes under the upper ones, in the spacing of
    [spacing_ok]. *)
Theorem pipe_lists_safe s k :
  base_h <= 305 -> 0 <= pipe_w <= 281 ->
  exists ps0 s0 ps s', initial_pipes s = inl (ps0, s0) /\
    pipes_run k 0%Q ps0 s0 = inl (ps, s') /\ pipes_inv ps /\
    (2 <= length (upperPipes ps) <= 3)%nat /\ length (lowerPipes ps) = length (upperPipes ps).
Proof.
  intros Hb Hw. destruct (initial_pipes_ok s Hb) as (ps0 & s0 & E0 & Hi0).
  destruct (pipes_run_inv k 0 ps0 s0 Hb Hw Hi0) as (ps & s' & E & Hi).
  exists ps0, s0, ps, s'. split; [exact E0 |]. split; [exact E |].
  split; [exact Hi | apply pipes_inv_length, Hi].
Qed.

(** C21. With a base 307 pixels high or more, the first [getRandomPipe]
    of a round raises [ValueError]: [randrange(0, 0)] is empty. *)
Theorem initial_value_error s : 307 <= base_h -> initial_pipes s = inr ValueError.
Proof.
  intros Hb. unfold initial_pipes.
  destruct (getRandomPipe 0 s) as [[[u l] s1] | e] eqn:E.
  - apply getRandomPipe_inl in E. destruct E as (r & Hr & _). pose proof (rand_stop_empty Hb). lia.
  - apply getRandomPipe_inr in E. destruct E as [_ ->]. reflexivity.
Qed.

End Props.

(** ** Witnesses *)
Section Witnesses.
#[local] Existing Instance sample_sprites.

Lemma getRandomPipe_opening_witness :
  getRandomPipe (Σ := Z) 0 7 =
    inl (mkPipeDict 588 ((-2817) # 9), mkPipeDict 588 (532 # 3), 1282168116) /\
  px (mkPipeDict 588 ((-2817) # 9)) = SCREENWIDTH + 10 /\
  px (mkPipeDict 588 (532 # 3)) = SCREENWIDTH + 10 /\
  (py (mkPipeDict 588 (532 # 3)) - (py (mkPipeDict 588 ((-2817) # 9)) + inject_Z pipe_h)
     == offset 0)%Q /\
  (0 <= py (mkPipeDict 588 ((-2817) # 9)) + inject_Z pipe_h)%Q.
Proof.
  assert (E : getRandomPipe (Σ := Z) 0 7 =
    inl (mkPipeDict 588 ((-2817) # 9), mkPipeDict 588 (532 # 3), 1282168116))
    by (vm_compute; reflexivity).
  split; [exact E | exact (getRandomPipe_opening 0 7 _ _ _ E)].
Defined.

Lemma pipe_lists_safe_witness :
  base_h <= 305 /\ 0 <= pipe_w <= 281 /\
  exists ps0 s0 ps s', initial_pipes (7 : Z) = inl (ps0, s0) /\
    pipes_run 300 0%Q ps0 s0 = inl (ps, s') /\ pipes_inv ps /\
    (2 <= length (upperPipes ps) <= 3)%nat /\ length (lowerPipes ps) = length (upperPipes ps).
Proof.
  assert (Hb : base_h <= 305) by (cbn; lia).
  assert (Hw : 0 <= pipe_w <= 281) by (cbn; lia).
  split; [exact Hb |]. split; [exact Hw |]. exact (pipe_lists_safe 7 300 Hb Hw).
Defined.

End Witnesses.

Section TallBase.
(** A base image 400 pixels high. *)
#[local] Instance tall_base_sprites : FbSprites := {|
  player_w := 34; player_h := 30; pipe_w := 52; pipe_h := 320; base_h := 400; bg_w := 578
|}.

Lemma initial_value_error_witness :
  307 <= base_h /\ initial_pipes (7 : Z) = inr ValueError.
Proof.
  assert (Hb : 307 <= base_h) by (cbn; lia).
  split; [exact Hb | exact (initial_value_error 7 Hb)].
Defined.

End TallBase.
