(* ===== verification/FbCollide.v ===== *)
(** * [isCollide] of [src/unnamed/part_000] (lines 126-142)

    The test first checks the bounds of the window ([playery >
    SCREENHEIGHT - 130] or [playery < 0]), then the upper pipes (the
    bird's top above the pipe's lower end and [abs(playerx - pipe['x'])]
    below the pipe width), then the lower pipes (the bird's bottom below
    the pipe's top, the same horizontal test).  On an upper pipe it runs
    [for i in range(playery)] before returning, which raises [TypeError]
    when [playery] is a float.

    Theorems: the exceptions of the test are exactly that [TypeError];
    the horizontal test is the overlap of the bird's and the pipe's
    rectangles exactly when the bird is as wide as the pipe, so that with
    any other width the test reports collisions the rectangles do not
    have, or misses some they have. *)

From Stdlib Require Import ZArith QArith Lia Lqa.
From stdpp Require Import base list.
From S2P Require Import Prelude PyNum FbConfig FbPipes.
Open Scope Z_scope.

Section Collide.
Context `{FbSprites}.

(** [playery > SCREENHEIGHT - 130 or playery < 0]. *)
Definition out_of_bounds (playery : PyNum) : bool :=
  py_lt (py_sub (PInt SCREENHEIGHT) (PInt 130)) playery || py_lt playery (PInt 0).

(** Line 132. *)
Definition hits_upper (playerx : Z) (playery : PyNum) (pipe : PipeDict) : bool :=
  py_lt playery (py_add (PInt pipe_h) (PFloat (py pipe))) && (Z.abs (playerx - px pipe) <? pipe_w).

(** Lines 138-139. *)
Definition hits_lower (playerx : Z) (playery : PyNum) (pipe : PipeDict) : bool :=
  py_lt (PFloat (py pipe)) (py_add playery (PInt player_h)) && (Z.abs (playerx - px pipe) <? pipe_w).

(** Lines 126-142; the [for] loops stop at the first pipe hit. *)
Definition isCollide (playerx : Z) (playery : PyNum) (upperPipes lowerPipes : list PipeDict)
    : bool + PyExc :=
  if out_of_bounds playery then inl true
  else if existsb (hits_upper playerx playery) upperPipes then
    match py_range playery with inl _ => inl true | inr e => inr e end
  else inl (existsb (hits_lower playerx playery) lowerPipes).

(** The rectangles: the bird is [player_w] wide from [playerx]; a pipe is
    [pipe_w] wide from its [x]; the upper pipe reaches up and the lower
    pipe down out of the window. *)
Definition overlap_x (playerx : Z) (pipe : PipeDict) : bool :=
  (playerx <? px pipe + pipe_w) && (px pipe <? playerx + player_w).

Definition box_upper (playerx : Z) (playery : PyNum) (pipe : PipeDict) : bool :=
  py_lt playery (py_add (PInt pipe_h) (PFloat (py pipe))) && overlap_x playerx pipe.

Definition box_lower (playerx : Z) (playery : PyNum) (pipe : PipeDict) : bool :=
  py_lt (PFloat (py pipe)) (py_add playery (PInt player_h)) && overlap_x playerx pipe.

Definition box_collide (playerx : Z) (playery : PyNum) (upperPipes lowerPipes : list PipeDict)
    : bool :=
  out_of_bounds playery || existsb (box_upper playerx playery) upperPipes ||
  existsb (box_lower playerx playery) lowerPipes.

End Collide.

Section Props.
Context `{FbSpritesWf}.

(** The only exception of the test is the [TypeError] of [range] on a
    float height, reached through an upper pipe. *)
Lemma isCollide_inr x y us ls e :
  isCollide x y us ls = inr e <->
  e = TypeError /\ is_int y = false /\ out_of_bounds y = false /\
  existsb (hits_upper x y) us = true.
Proof.
  unfold isCollide. destruct (out_of_bounds y), (existsb (hits_upper x y) us), y; cbn;
    split; intros; try discriminate; intuition congruence.
Qed.

(** With equal widths the two horizontal tests agree. *)
Lemma abs_test_overlap x p :
  player_w = pipe_w -> (Z.abs (x - px p) <? pipe_w) = overlap_x x p.
Proof.
  intros E. unfold overlap_x. rewrite E.
  destruct (Z.ltb_spec (Z.abs (x - px p)) pipe_w), (Z.ltb_spec x (px p + pipe_w)),
    (Z.ltb_spec (px p) (x + pipe_w)); cbn; lia.
Qed.

Lemma isCollide_boxes_eq x y us ls b :
  player_w = pipe_w -> isCollide x y us ls = inl b -> b = box_collide x y us ls.
Proof.
  intros E. unfold isCollide, box_collide.
  rewrite (existsb_ext (hits_upper x y) (box_upper x y)), (existsb_ext (hits_lower x y) (box_lower x y))
    by (intros p; unfold hits_upper, hits_lower, box_upper, box_lower;
        rewrite abs_test_overlap by exact E; reflexivity).
  destruct (out_of_bounds y); cbn [orb]; [congruence |].
  destruct (existsb _ us); cbn [orb]; [destruct (py_range y); congruence | congruence].
Qed.

(** A probe: the bird at height 100, no upper pipe, one lower pipe whose
    top is at 0; only the horizontal tests decide. *)
Lemma probe_in_bounds : out_of_bounds (PInt 100) = false.
Proof. reflexivity. Qed.

Lemma probe_isCollide x p :
  py p = 0%Q -> isCollide x (PInt 100) [] [p] = inl (Z.abs (x - px p) <? pipe_w).
Proof.
  intros Hp. unfold isCollide, hits_lower. rewrite probe_in_bounds. cbn [existsb]. rewrite Hp.
  assert (Hv : py_lt (PFloat 0) (py_add (PInt 100) (PInt player_h)) = true).
  { apply py_lt_spec. cbn [to_Q py_add]. change 0%Q with (inject_Z 0).
    rewrite <- Zlt_Qlt. pose proof player_h_nonneg. lia. }
  rewrite Hv. cbn. destruct (_ <? _); reflexivity.
Qed.

Lemma probe_box x p :
  py p = 0%Q -> box_collide x (PInt 100) [] [p] = overlap_x x p.
Proof.
  intros Hp. unfold box_collide, box_lower. rewrite probe_in_bounds. cbn [existsb]. rewrite Hp.
  assert (Hv : py_lt (PFloat 0) (py_add (PInt 100) (PInt player_h)) = true).
  { apply py_lt_spec. cbn [to_Q py_add]. change 0%Q with (inject_Z 0).
    rewrite <- Zlt_Qlt. pose proof player_h_nonneg. lia. }
  rewrite Hv. cbn. destruct (overlap_x x p); reflexivity.
Qed.

End Props.

Section Claims.
Context `{FbSpritesWf}.

(** C22. The pipe test of [isCollide] is the overlap of the bird's and
    the pipes' rectangles (for every position, height and pipe list)
    exactly when the bird is as wide as the pipe: a narrower bird is hit
    by a pipe it does not touch, a wider one passes through a pipe it
    overlaps. *)
Theorem isCollide_exact :
  0 < pipe_w ->
  (forall x y us ls b, isCollide x y us ls = inl b -> b = box_collide x y us ls) <->
  player_w = pipe_w.
Proof.
  intros Hw. split; [| intros E x y us ls b; apply isCollide_boxes_eq, E].
  intros Hall. pose proof player_w_nonneg as Hpw.
  destruct (Z.lt_trichotomy player_w pipe_w) as [Hlt | [Heq | Hgt]]; [exfalso | exact Heq | exfalso].
  - (* a pipe just right of a narrower bird *)
    pose proof (Hall 0 _ [] _ _ (probe_isCollide 0 (mkPipeDict player_w 0) eq_refl)) as Hc.
    rewrite probe_box in Hc by reflexivity. unfold overlap_x in Hc. cbn [px] in Hc.
    destruct (Z.ltb_spec (Z.abs (0 - player_w)) pipe_w), (Z.ltb_spec 0 (player_w + pipe_w)),
      (Z.ltb_spec player_w (0 + player_w)); cbn in Hc; try discriminate; lia.
  - (* a pipe overlapping a wider bird, one pipe width to its right *)
    pose proof (Hall 0 _ [] _ _ (probe_isCollide 0 (mkPipeDict pipe_w 0) eq_refl)) as Hc.
    rewrite probe_box in Hc by reflexivity. unfold overlap_x in Hc. cbn [px] in Hc.
    destruct (Z.ltb_spec (Z.abs (0 - pipe_w)) pipe_w), (Z.ltb_spec 0 (pipe_w + pipe_w)),
      (Z.ltb_spec pipe_w (0 + player_w)); cbn in Hc; try discriminate; lia.
Qed.

(** C23. [isCollide] raises only the [TypeError] of [range(playery)]: on a
    float height inside the window, as soon as an upper pipe is hit. *)
Theorem isCollide_type_error x q us ls :
  out_of_bounds (PFloat q) = false -> existsb (hits_upper x (PFloat q)) us = true ->
  isCollide x (PFloat q) us ls = inr TypeError /\
  (forall y e, isCollide x y us ls = inr e -> e = TypeError /\ is_int y = false).
Proof.
  intros Hb Hu. split; [apply isCollide_inr; auto |].
  intros y e He. apply isCollide_inr in He. tauto.
Qed.

End Claims.

Section Witnesses.
#[local] Existing Instance sample_sprites.
#[local] Existing Instance sample_sprites_wf.

Lemma isCollide_exact_witness :
  0 < pipe_w /\
  ((forall x y us ls b, isCollide x y us ls = inl b -> b = box_collide x y us ls) <->
   player_w = pipe_w).
Proof.
  assert (Hw : 0 < pipe_w) by (cbn; lia).
  split; [exact Hw | exact (isCollide_exact Hw)].
Defined.

Lemma isCollide_type_error_witness :
  out_of_bounds (PFloat (1 # 2)) = false /\
  existsb (hits_upper 115 (PFloat (1 # 2))) [mkPipeDict 120 (-300)] = true /\
  isCollide 115 (PFloat (1 # 2)) [mkPipeDict 120 (-300)] [] = inr TypeError /\
  (forall y e, isCollide 115 y [mkPipeDict 120 (-300)] [] = inr e -> e = TypeError /\ is_int y = false).
Proof.
  assert (Hb : out_of_bounds (PFloat (1 # 2)) = false) by reflexivity.
  assert (Hu : existsb (hits_upper 115 (PFloat (1 # 2))) [mkPipeDict 120 (-300)] = true)
    by reflexivity.
  split; [exact Hb |]. split; [exact Hu | exact (isCollide_type_error 115 _ _ [] Hb Hu)].
Defined.

End Witnesses.
