(* ===== verification/FbScore.v ===== *)
(** * The score of [src/unnamed/part_000] (lines 78-84)

    Each frame, before the pipes move, [mainGame] adds one point for
    every upper pipe whose middle is at most 4 pixels left of the
    player's middle: [pipeMidPos <= playerMidPos < pipeMidPos + 4].  The
    pipes move by 3 pixels a frame, so the window of 4 pixels sees a pipe
    in one frame or in two.

    Theorems: the window, on the integral [x] of a pipe, is the four
    columns [m - 3 .. m] with [m = (2 * playerx + player width - pipe
    width) / 2]; a pipe passing the player is scored twice when its [x]
    is [m] modulo 3 and once otherwise, never zero times. *)

From Stdlib Require Import ZArith QArith Lia Lqa.
From stdpp Require Import base list.
From S2P Require Import Prelude PyNum FbConfig FbPlayer FbPipes.
Open Scope Z_scope.

Section Score.
Context `{FbSprites}.

(** Line 78: [playerx + GAME_SPRITES['player'].get_width() / 2]. *)
Definition playerMidPos (playerx : Z) : PyNum :=
  py_add (PInt playerx) (py_truediv (PInt player_w) (PInt 2)).

(** Line 80: [pipe['x'] + GAME_SPRITES['pipe'][0].get_width() / 2]. *)
Definition pipeMidPos (pipe : PipeDict) : PyNum :=
  py_add (PInt (px pipe)) (py_truediv (PInt pipe_w) (PInt 2)).

(** Line 81. *)
Definition scores (playerx : Z) (pipe : PipeDict) : bool :=
  py_le (pipeMidPos pipe) (playerMidPos playerx) &&
  py_lt (playerMidPos playerx) (py_add (pipeMidPos pipe) (PInt 4)).

(** Lines 79-84: the score after the loop over the upper pipes (one
    point sound per point). *)
Definition score_frame (playerx : Z) (upperPipes : list PipeDict) (score : Z) : Z :=
  fold_left (fun sc pipe => if scores playerx pipe then sc + 1 else sc) upperPipes score.

(** The right end of the window. *)
Definition window_end (playerx : Z) : Z := (2 * playerx + player_w - pipe_w) / 2.

(** [k] frames of scoring over pipes that only move (no pipe is added
    or dropped). *)
Fixpoint score_run (k : nat) (playerx : Z) (us : list PipeDict) (score : Z) : Z :=
  match k with
  | O => score
  | S k' => score_run k' playerx (map shift us) (score_frame playerx us score)
  end.

End Score.

(** Halves compared over the integers. *)
Lemma Qle_halves a b c d :
  (inject_Z a + inject_Z b * (1 # 2) <= inject_Z c + inject_Z d * (1 # 2))%Q <-> 2 * a + b <= 2 * c + d.
Proof.
  rewrite Zle_Qle, !inject_Z_plus, !inject_Z_mult. change (inject_Z 2) with 2%Q.
  split; intros; lra.
Qed.

Lemma Qlt_halves a b c d :
  (inject_Z a + inject_Z b * (1 # 2) < inject_Z c + inject_Z d * (1 # 2) + inject_Z 4)%Q <->
  2 * a + b < 2 * c + d + 8.
Proof.
  rewrite Zlt_Qlt, !inject_Z_plus, !inject_Z_mult. change (inject_Z 2) with 2%Q.
  change (inject_Z 8) with 8%Q. change (inject_Z 4) with 4%Q. split; intros; lra.
Qed.

Section Props.
Context `{FbSprites}.

Lemma scores_left x p :
  py_le (pipeMidPos p) (playerMidPos x) = (2 * px p + pipe_w <=? 2 * x + player_w).
Proof.
  apply eq_iff_eq_true. rewrite py_le_spec, Z.leb_le.
  unfold playerMidPos, pipeMidPos. rewrite !to_Q_add, !to_Q_truediv. cbn [to_Q].
  change (inject_Z player_w / inject_Z 2)%Q with (inject_Z player_w * (1 # 2))%Q.
  change (inject_Z pipe_w / inject_Z 2)%Q with (inject_Z pipe_w * (1 # 2))%Q.
  apply Qle_halves.
Qed.

Lemma scores_right x p :
  py_lt (playerMidPos x) (py_add (pipeMidPos p) (PInt 4)) = (2 * x + player_w <? 2 * px p + pipe_w + 8).
Proof.
  apply eq_iff_eq_true. rewrite py_lt_spec, Z.ltb_lt.
  unfold playerMidPos, pipeMidPos. rewrite !to_Q_add, !to_Q_truediv. cbn [to_Q].
  change (inject_Z player_w / inject_Z 2)%Q with (inject_Z player_w * (1 # 2))%Q.
  change (inject_Z pipe_w / inject_Z 2)%Q with (inject_Z pipe_w * (1 # 2))%Q.
  apply Qlt_halves.
Qed.

(** The window, over the integers. *)
Lemma scores_window x p :
  scores x p = (window_end x - 3 <=? px p) && (px p <=? window_end x).
Proof.
  unfold scores. rewrite scores_left, scores_right. unfold window_end.
  pose proof (Z.div_mod (2 * x + player_w - pipe_w) 2 ltac:(lia)).
  pose proof (Z.mod_pos_bound (2 * x + player_w - pipe_w) 2 ltac:(lia)).
  destruct (Z.leb_spec (2 * px p + pipe_w) (2 * x + player_w)),
    (Z.ltb_spec (2 * x + player_w) (2 * px p + pipe_w + 8)),
    (Z.leb_spec ((2 * x + player_w - pipe_w) / 2 - 3) (px p)),
    (Z.leb_spec (px p) ((2 * x + player_w - pipe_w) / 2)); cbn; lia.
Qed.

(** Positions left of the window are not scored any more. *)
Lemma score_run_left k x p sc :
  px p < window_end x - 3 -> score_run k x [p] sc = sc.
Proof.
  revert p sc. induction k as [| k IH]; intros p sc Hp; [reflexivity |].
  cbn [score_run map]. rewrite IH by (cbn; unfold pipeVelX; lia).
  unfold score_frame. cbn. rewrite scores_window.
  destruct (Z.leb_spec (window_end x - 3) (px p)); [lia | reflexivity].
Qed.

(** How often a pipe at [x0] is scored on its way past the player. *)
Definition times_scored (x x0 : Z) : Z :=
  if (window_end x <=? x0) && ((x0 - window_end x) mod 3 =? 0) then 2 else 1.

(** A pipe entering from the window's right end or beyond, followed
    until it has left the window. *)
Lemma score_run_pass k x p sc :
  window_end x - 3 <= px p -> px p - 3 * Z.of_nat k < window_end x - 3 ->
  score_run k x [p] sc = sc + times_scored x (px p).
Proof.
  revert p sc. induction k as [| k IH]; intros p sc H1 H2; [cbn in H2; lia |].
  cbn [score_run map]. unfold score_frame. cbn [fold_left]. rewrite scores_window.
  destruct (Z.ltb_spec (px p) (window_end x)).
  - rewrite score_run_left by (cbn; unfold pipeVelX; lia).
    unfold times_scored. set (m := window_end x) in *.
    destruct (Z.leb_spec (m - 3) (px p)), (Z.leb_spec (px p) m), (Z.leb_spec m (px p));
      cbn; lia.
  - rewrite IH by (cbn; unfold pipeVelX; lia). cbn [px shift]. unfold pipeVelX.
    unfold times_scored. set (m := window_end x) in *.
    destruct (Z.leb_spec (m - 3) (px p)), (Z.leb_spec (px p) m), (Z.leb_spec m (px p + -3)),
      (Z.leb_spec m (px p)), (Z.eqb_spec ((px p - m) mod 3) 0),
      (Z.eqb_spec ((px p + -3 - m) mod 3) 0); cbn; zmod_solve.
Qed.

End Props.

Section Claims.
Context `{FbSpritesWf}.

(** C24. A pipe that passes the player (it enters at or right of the
    window of four columns and the frames last until it has left) is
    scored once or twice, never zero times, and twice exactly when its
    [x] is the window's right end modulo 3. *)
Theorem pipe_scored_once_or_twice k x p sc :
  window_end x - 3 <= px p -> px p - 3 * Z.of_nat k < window_end x - 3 ->
  (score_run k x [p] sc = sc + 1 \/ score_run k x [p] sc = sc + 2) /\
  (score_run k x [p] sc = sc + 2 <-> window_end x <= px p /\ (px p - window_end x) mod 3 = 0).
Proof.
  intros H1 H2. rewrite (score_run_pass k x p sc H1 H2). unfold times_scored.
  destruct (Z.leb_spec (window_end x) (px p)), (Z.eqb_spec ((px p - window_end x) mod 3) 0);
    cbn; split; (lia || (split; [lia | intros [? ?]; lia])).
Qed.

(** C25. Whatever the sizes of the images (up to 500 pixels wide), one
    of the three tracks of pipes (the first pipe at [SCREENWIDTH + 200],
    the second at [SCREENWIDTH + 200 + SCREENWIDTH / 2], every later one
    at [SCREENWIDTH + 10]) is scored twice by a player who passes it,
    where the specification asks for one point per pipe. *)
Theorem some_pipe_scored_twice (y : Q) :
  player_w <= 500 -> pipe_w <= 500 ->
  exists x0, In x0 [SCREENWIDTH + 200; SCREENWIDTH + 200 + SCREENWIDTH / 2; SCREENWIDTH + 10] /\
    score_run 1000 Player.playerx [mkPipeDict x0 y] 0 = 2.
Proof.
  intros Hpw Hw. pose proof player_w_nonneg. pose proof pipe_w_nonneg.
  assert (Hx : Player.playerx = 115) by reflexivity. rewrite Hx.
  assert (Hm : -135 <= window_end 115 <= 365).
  { unfold window_end. pose proof (Z.div_mod (2 * 115 + player_w - pipe_w) 2 ltac:(lia)).
    pose proof (Z.mod_pos_bound (2 * 115 + player_w - pipe_w) 2 ltac:(lia)). lia. }
  unfold SCREENWIDTH. cbn [Z.div].
  pose proof (Z.mod_pos_bound (window_end 115) 3 ltac:(lia)) as Hr.
  assert (Hc : window_end 115 mod 3 = 0 \/ window_end 115 mod 3 = 1 \/ window_end 115 mod 3 = 2)
    by lia.
  destruct Hc as [Hc | [Hc | Hc]];
    [exists 588 | exists 778 | exists 1067]; (split; [cbn; tauto |]);
    rewrite score_run_pass by (cbn; lia); unfold times_scored; cbn [px];
    match goal with |- context [window_end 115 <=? ?v] =>
      destruct (Z.leb_spec (window_end 115) v); [| lia] end;
    match goal with |- context [(?a mod 3 =? 0)] =>
      destruct (Z.eqb_spec (a mod 3) 0); cbn; [reflexivity | exfalso; zmod_solve] end.
Qed.

End Claims.

Section Witnesses.
#[local] Existing Instance sample_sprites.
#[local] Existing Instance sample_sprites_wf.

Lemma pipe_scored_once_or_twice_witness :
  window_end 115 - 3 <= px (mkPipeDict 778 0) /\
  px (mkPipeDict 778 0) - 3 * Z.of_nat 300 < window_end 115 - 3 /\
  (score_run 300 115 [mkPipeDict 778 0] 0 = 0 + 1 \/ score_run 300 115 [mkPipeDict 778 0] 0 = 0 + 2) /\
  (score_run 300 115 [mkPipeDict 778 0] 0 = 0 + 2 <->
   window_end 115 <= px (mkPipeDict 778 0) /\ (px (mkPipeDict 778 0) - window_end 115) mod 3 = 0).
Proof.
  assert (H1 : window_end 115 - 3 <= px (mkPipeDict 778 0)) by (vm_compute; discriminate).
  assert (H2 : px (mkPipeDict 778 0) - 3 * Z.of_nat 300 < window_end 115 - 3) by (vm_compute; reflexivity).
  split; [exact H1 |]. split; [exact H2 | exact (pipe_scored_once_or_twice 300 115 _ 0 H1 H2)].
Defined.

Lemma some_pipe_scored_twice_witness :
  player_w <= 500 /\ pipe_w <= 500 /\
  exists x0, In x0 [SCREENWIDTH + 200; SCREENWIDTH + 200 + SCREENWIDTH / 2; SCREENWIDTH + 10] /\
    score_run 1000 Player.playerx [mkPipeDict x0 0] 0 = 2.
Proof.
  assert (H1 : player_w <= 500) by (cbn; lia).
  assert (H2 : pipe_w <= 500) by (cbn; lia).
  split; [exact H1 |]. split; [exact H2 | exact (some_pipe_scored_twice 0 H1 H2)].
Defined.

End Witnesses.
