(* ===== verification/FbBackground.v ===== *)
(** * The background of [src/unnamed/part_000] (lines 60-63, 117-124)

    Two copies of the background image scroll left by one pixel a frame;
    a copy that is more than its width off the left edge is put right
    after the other one ([bgOne_x = bgTwo_x + bgTwo.get_width()], and the
    same for the second copy, which reads the first copy's new place).

    Theorems: the two copies always lie edge to edge, the left one at
    most one width off screen; they cover every column of the window in
    every frame exactly when the image is at least [SCREENWIDTH] wide
    (after [bg_w] frames the right copy starts at column 0). *)

From Stdlib Require Import ZArith Lia.
From stdpp Require Import base list.
From S2P Require Import Prelude FbConfig.
Open Scope Z_scope.

Record Bg := mkBg { bgOne_x : Z; bgTwo_x : Z }.

Section Background.
Context `{FbSprites}.

(** Lines 62-63. *)
Definition bg_init : Bg := mkBg 0 bg_w.

(** Lines 119-124. *)
Definition bg_step (b : Bg) : Bg :=
  let one := bgOne_x b - 1 in
  let two := bgTwo_x b - 1 in
  let one' := if one <? -1 * bg_w then two + bg_w else one in
  let two' := if two <? -1 * bg_w then one' + bg_w else two in
  mkBg one' two'.

(** The copies are edge to edge, the left one in [[-bg_w, 0]]. *)
Definition bg_inv (b : Bg) : Prop :=
  (bgTwo_x b = bgOne_x b + bg_w /\ - bg_w <= bgOne_x b <= 0) \/
  (bgOne_x b = bgTwo_x b + bg_w /\ - bg_w <= bgTwo_x b <= 0).

(** Every column of the window is under a copy. *)
Definition bg_covers (b : Bg) : Prop :=
  forall c, 0 <= c < SCREENWIDTH ->
  (bgOne_x b <= c < bgOne_x b + bg_w) \/ (bgTwo_x b <= c < bgTwo_x b + bg_w).

End Background.

Section Props.
Context `{FbSpritesWf}.

#[export] Instance bg_inv_dec b : Decision (bg_inv b).
Proof. unfold bg_inv. apply _. Defined.

Lemma bg_inv_init : bg_inv bg_init.
Proof. pose proof bg_w_pos. left. cbn. lia. Qed.

Lemma bg_inv_step b : bg_inv b -> bg_inv (bg_step b).
Proof.
  pose proof bg_w_pos. destruct b as [o t]. unfold bg_inv, bg_step. cbn.
  intros Hi; destruct (Z.ltb_spec (o - 1) (-1 * bg_w)), (Z.ltb_spec (t - 1) (-1 * bg_w)); cbn; lia.
Qed.

Lemma bg_inv_iter k : bg_inv (Nat.iter k bg_step bg_init).
Proof.
  induction k as [| k IH]; [apply bg_inv_init |]. rewrite Nat.iter_succ. apply bg_inv_step, IH.
Qed.

Lemma bg_inv_covers b : SCREENWIDTH <= bg_w -> bg_inv b -> bg_covers b.
Proof. intros Hw [[Ht Ho] | [Ho Ht]] c Hc; unfold SCREENWIDTH in *; lia. Qed.

(** For the first [bg_w] frames the copies move without a wrap. *)
Lemma bg_iter_early k :
  (Z.of_nat k <= bg_w) -> Nat.iter k bg_step bg_init = mkBg (- Z.of_nat k) (bg_w - Z.of_nat k).
Proof.
  pose proof bg_w_pos. induction k as [| k IH]; intros Hk; [change (Nat.iter 0 bg_step bg_init) with bg_init; unfold bg_init; f_equal; lia |].
  rewrite Nat.iter_succ, IH by lia. unfold bg_step. cbn [bgOne_x bgTwo_x].
  destruct (Z.ltb_spec (- Z.of_nat k - 1) (-1 * bg_w)); [lia |].
  destruct (Z.ltb_spec (bg_w - Z.of_nat k - 1) (-1 * bg_w)); [lia |]. f_equal; lia.
Qed.

End Props.

Section Claims.
Context `{FbSpritesWf}.

(** C26. In every frame the two background copies lie edge to edge, the
    left one at most one width off screen; they cover the whole window in
    every frame exactly when the image is at least [SCREENWIDTH] wide:
    a narrower image leaves the columns from [bg_w] on uncovered in
    frame [bg_w]. *)
Theorem bg_scroll k :
  bg_inv (Nat.iter k bg_step bg_init) /\
  ((forall j, bg_covers (Nat.iter j bg_step bg_init)) <-> SCREENWIDTH <= bg_w).
Proof.
  split; [apply bg_inv_iter |]. pose proof bg_w_pos as Hw. split.
  - intros Hall. destruct (Z.le_gt_cases SCREENWIDTH bg_w) as [Hle | Hgt]; [exact Hle | exfalso].
    specialize (Hall (Z.to_nat bg_w) bg_w).
    rewrite bg_iter_early in Hall by lia. cbn [bgOne_x bgTwo_x] in Hall.
    rewrite Z2Nat.id in Hall by lia. destruct Hall; lia.
  - intros Hle j. apply bg_inv_covers; [exact Hle | apply bg_inv_iter].
Qed.

End Claims.

Section Witnesses.
#[local] Existing Instance sample_sprites.
#[local] Existing Instance sample_sprites_wf.

Lemma bg_scroll_witness :
  bg_inv (Nat.iter 2000 bg_step bg_init) /\
  ((forall j, bg_covers (Nat.iter j bg_step bg_init)) <-> SCREENWIDTH <= bg_w).
Proof. exact (bg_scroll 2000). Defined.

End Witnesses.
