(* ===== verification/FbGame.v ===== *)
(** * The game loop of [src/unnamed/part_000]: [welcomeScreen], [mainGame]
    and [while True: welcomeScreen(); mainGame()]

    The program alternates between the welcome screen (lines 18-37) and
    a round of [mainGame] (lines 38-125); a round ends when [isCollide]
    reports a crash, and control goes back to the welcome screen.  A quit
    event or the escape key ends the program through [sys.exit()].

    The state ([FbState]) is the phase, the state of Python's [random]
    module, shared by all rounds, and the sounds started so far.  A
    round ([Round]) holds the locals of [mainGame] that change: the
    player, the score, the two pipe lists, [gap] and the background.
    [fb_tick] is one frame with the events [pygame.event.get()] returned
    for it.

    Theorems: every reachable state keeps the invariant [round_inv], and
    the only exception the program raises is the [TypeError] of
    [range(playery)] ([fb_reachable]).  A crash sends the program back to
    the welcome screen.  With a player image at least 28 pixels high the
    bird can rest on the ground.  A run from the start (a flap on the
    welcome screen, 181 frames without input, 23 flaps) ends in that
    [TypeError]. *)

From Stdlib Require Import ZArith QArith Lia Lqa.
From stdpp Require Import base list.
From S2P Require Import Prelude PyNum FbConfig Random FbPlayer FbPipes FbCollide FbScore FbBackground.
Open Scope Z_scope.

Inductive FbKey := FK_SPACE | FK_UP | FK_ESCAPE | FK_OTHER.
Inductive FbEvent := FQUIT | FKEYDOWN (k : FbKey) | FOTHER.
(** The sounds the logic starts: [GAME_SOUNDS['wing']], ['point'] and
    ['hit']. *)
Inductive FbCue := WING | POINT | HIT.

#[export] Instance FbKey_eq_dec : EqDecision FbKey.
Proof. solve_decision. Defined.
#[export] Instance FbEvent_eq_dec : EqDecision FbEvent.
Proof. solve_decision. Defined.
#[export] Instance FbCue_eq_dec : EqDecision FbCue.
Proof. solve_decision. Defined.

(** [event.type == QUIT or (event.type == KEYDOWN and event.key == K_ESCAPE)]. *)
Definition is_quit (e : FbEvent) : bool :=
  match e with FQUIT | FKEYDOWN FK_ESCAPE => true | _ => false end.

(** [event.type == KEYDOWN and (event.key == K_SPACE or event.key == K_UP)]. *)
Definition is_flap (e : FbEvent) : bool :=
  match e with FKEYDOWN FK_SPACE | FKEYDOWN FK_UP => true | _ => false end.

Record Round := mkRound {
  player : Player.Player;
  score : Z;
  pipes : Pipes;
  gap : Q;
  bg : Bg
}.

Inductive FbPhase := FWelcome | FPlaying (r : Round) | FExited | FRaised (e : PyExc).

Section Game.
Context `{FbSprites} {Σ : Type} `{RandomSource Σ}.

Record FbState := mkFbState { phase : FbPhase; rng : Σ; cues : list FbCue }.

(** Lines 25-30 for the events of one frame: [None] for [sys.exit()],
    [Some true] when a flap key returns to the caller, which starts the
    round. *)
Fixpoint welcome_events (evs : list FbEvent) : option bool :=
  match evs with
  | [] => Some false
  | e :: evs' => if is_quit e then None else if is_flap e then Some true else welcome_events evs'
  end.

(** Lines 39-63: the start of a round. *)
Definition start_round (s : Σ) : (Round * Σ) + PyExc :=
  match initial_pipes s with
  | inr e => inr e
  | inl (ps, s') => inl (mkRound Player.init 0 ps 0%Q bg_init, s')
  end.

(** Lines 65-73 for the events of one frame: [None] for [sys.exit()];
    otherwise the player and the wing sounds. *)
Fixpoint main_events (evs : list FbEvent) (p : Player.Player) : option (Player.Player * list FbCue) :=
  match evs with
  | [] => Some (p, [])
  | e :: evs' =>
      if is_quit e then None
      else
        let '(p1, wing) := if is_flap e then Player.flap p else (p, false) in
        match main_events evs' p1 with
        | None => None
        | Some (p2, cs) => Some (p2, (if wing then [WING] else []) ++ cs)
        end
  end.

(** Lines 74-125 after the events: the crash test, the score, the
    player, the pipes, [gap] and the background. *)
Definition play_rest (r : Round) (p1 : Player.Player) (s : Σ) : (option Round * Σ * list FbCue) + PyExc :=
  match isCollide Player.playerx (Player.playery p1) (upperPipes (pipes r)) (lowerPipes (pipes r)) with
  | inr e => inr e
  | inl true => inl (None, s, [HIT])
  | inl false =>
      let sc := score_frame Player.playerx (upperPipes (pipes r)) (score r) in
      let p2 := Player.move (Player.gravity p1) in
      match pipes_frame (gap r) (pipes r) s with
      | inr e => inr e
      | inl (ps, s') =>
          inl (Some (mkRound p2 sc ps (gap_step (gap r)) (bg_step (bg r))), s',
               repeat POINT (Z.to_nat (sc - score r)))
      end
  end.

(** One frame of the program. *)
Definition fb_tick (evs : list FbEvent) (st : FbState) : FbState :=
  match phase st with
  | FWelcome =>
      match welcome_events evs with
      | None => mkFbState FExited (rng st) (cues st)
      | Some false => st
      | Some true =>
          match start_round (rng st) with
          | inr e => mkFbState (FRaised e) (rng st) (cues st)
          | inl (r, s') => mkFbState (FPlaying r) s' (cues st)
          end
      end
  | FPlaying r =>
      match main_events evs (player r) with
      | None => mkFbState FExited (rng st) (cues st)
      | Some (p1, wings) =>
          match play_rest r p1 (rng st) with
          | inr e => mkFbState (FRaised e) (rng st) (cues st ++ wings)
          | inl (None, s', cs) => mkFbState FWelcome s' (cues st ++ wings ++ cs)
          | inl (Some r', s', cs) => mkFbState (FPlaying r') s' (cues st ++ wings ++ cs)
          end
      end
  | FExited | FRaised _ => st
  end.

(** Lines 155-184: the program starts on the welcome screen. *)
Definition fb_start (s : Σ) : FbState := mkFbState FWelcome s [].

(** A run: one list of events per frame. *)
Definition fb_run (frames : list (list FbEvent)) (st : FbState) : FbState :=
  fold_left (fun st evs => fb_tick evs st) frames st.

End Game.

(** ** The states the program reaches *)

(** A frame of a running program. *)
Definition fb_running (ph : FbPhase) : bool :=
  match ph with FWelcome | FPlaying _ => true | FExited | FRaised _ => false end.

Inductive fb_step `{FbSprites} {Σ : Type} `{RandomSource Σ} : FbState -> FbState -> Prop :=
| fb_step_tick evs st : fb_running (phase st) = true -> fb_step st (fb_tick evs st).

(** A round between two frames: the speed in bounds, no pending flap, the
    bird above the ground, the pipe lists and the background in their
    invariants, a non-negative [gap]. *)
Definition round_inv `{FbSprites} (r : Round) : Prop :=
  Player.vel_ok (player r) /\ Player.playerFlapped (player r) = false /\
  (to_Q (Player.playery (player r)) + inject_Z player_h <= to_Q GROUNDY)%Q /\
  pipes_inv (pipes r) /\ bg_inv (bg r) /\ (0 <= gap r)%Q.

Definition fb_inv `{FbSprites} {Σ : Type} (st : @FbState Σ) : Prop :=
  match phase st with
  | FWelcome | FExited => True
  | FPlaying r => round_inv r
  | FRaised e => e = TypeError
  end.

Section Reach.
Context `{FbSpritesWf} {Σ : Type} `{RandomSource Σ}.
Hypothesis base_ok : base_h <= 305.
Hypothesis pipe_ok : pipe_w <= 281.
Hypothesis player_ok : player_h <= 119.

(** The event loop only changes the speed and the flap flag. *)
Lemma main_events_player evs p p1 cs :
  main_events evs p = Some (p1, cs) -> Player.vel_ok p ->
  Player.vel_ok p1 /\ Player.playery p1 = Player.playery p.
Proof.
  revert p p1 cs. induction evs as [| e evs IH]; intros p p1 cs E Hv; cbn in E.
  - injection E as <- <-. auto.
  - destruct (is_quit e); [discriminate |].
    destruct (is_flap e) eqn:Ef.
    + destruct (Player.flap p) as [q w] eqn:Eq.
      destruct (main_events evs q) as [[p2 cs2] |] eqn:E2; [| discriminate].
      injection E as <- <-.
      assert (Hq : Player.vel_ok q /\ Player.playery q = Player.playery p).
      { pose proof (Player.vel_ok_flap p Hv) as Hf. rewrite Eq in Hf.
        unfold Player.flap in Eq. destruct (py_lt _ _); injection Eq as <- <-; auto. }
      destruct (IH q p2 cs2 E2 (proj1 Hq)) as [Hv2 Hy2]. split; [exact Hv2 | rewrite Hy2; apply Hq].
    + destruct (main_events evs p) as [[p2 cs2] |] eqn:E2; [| discriminate].
      injection E as <- <-. exact (IH p p2 cs2 E2 Hv).
Qed.

Lemma start_round_inv s :
  exists r s', start_round s = inl (r, s') /\ round_inv r.
Proof.
  destruct (initial_pipes_ok s base_ok) as (ps & s' & E & Hps).
  unfold start_round. rewrite E. do 2 eexists. split; [reflexivity |].
  unfold round_inv; cbn [player pipes bg gap].
  split; [apply Player.vel_ok_init |]. split; [reflexivity |].
  split; [| split; [exact Hps | split; [apply bg_inv_init | apply Qle_refl]]].
  assert (Ey : (to_Q (Player.playery Player.init) == 289)%Q) by reflexivity.
  rewrite GROUNDY_val, Ey. pose proof player_h_nonneg.
  assert (Hq : (inject_Z player_h <= inject_Z 119)%Q) by (rewrite <- Zle_Qle; exact player_ok).
  assert (E119 : (inject_Z 119 == 119)%Q) by reflexivity.
  assert (E289 : (inject_Z 289 == 289)%Q) by reflexivity. lra.
Qed.

Lemma play_rest_inv r p1 s :
  round_inv r -> Player.vel_ok p1 -> Player.playery p1 = Player.playery (player r) ->
  match play_rest r p1 s with
  | inr e => e = TypeError
  | inl (None, _, _) => True
  | inl (Some r', _, _) => round_inv r'
  end.
Proof.
  intros (Hv & Hf & Hg & Hp & Hb & Hgap) Hv1 Hy1. unfold play_rest.
  destruct (isCollide _ _ _ _) as [[|] | e] eqn:Ec; [exact I | | apply isCollide_inr in Ec; tauto].
  destruct (pipes_frame_inv (gap r) (pipes r) s base_ok (conj pipe_w_nonneg pipe_ok) Hgap Hp)
    as (ps & s' & -> & Hps).
  unfold round_inv; cbn [player pipes bg gap].
  split; [apply Player.vel_ok_gravity, Hv1 |]. split; [reflexivity |].
  split; [apply Player.move_above_ground |].
  split; [exact Hps |]. split; [apply bg_inv_step, Hb | apply gap_step_nonneg, Hgap].
Qed.

Lemma fb_inv_tick evs st : fb_inv st -> fb_inv (fb_tick evs st).
Proof.
  destruct st as [ph s cs]. unfold fb_inv, fb_tick. cbn [phase rng cues].
  destruct ph as [| r | | e]; intros Hi; cbn [phase]; try exact Hi.
  - destruct (welcome_events evs) as [[|] |]; cbn [phase]; try exact I.
    destruct (start_round_inv s) as (r & s' & -> & Hr). exact Hr.
  - destruct (main_events evs (player r)) as [[p1 wings] |] eqn:E; cbn [phase]; [| exact I].
    destruct (main_events_player _ _ _ _ E (proj1 Hi)) as [Hv1 Hy1].
    pose proof (play_rest_inv r p1 s Hi Hv1 Hy1) as Hr.
    destruct (play_rest r p1 s) as [[[[r' |] s'] cs'] | e]; exact Hr || exact I.
Qed.

(** A run is a sequence of steps: a stopped program stays as it is. *)
Lemma fb_run_star frames st : star fb_step st (fb_run frames st).
Proof.
  revert st. induction frames as [| evs frames IH]; intros st; [apply star_refl |].
  cbn [fb_run fold_left]. fold (fb_run frames (fb_tick evs st)).
  destruct (fb_running (phase st)) eqn:Er.
  - eapply star_step; [apply fb_step_tick, Er | apply IH].
  - replace (fb_tick evs st) with st; [apply IH |].
    destruct st as [[| | |] s cs]; cbn in Er; try discriminate; reflexivity.
Qed.

End Reach.

(** ** Properties *)
Section Claims.
Context `{FbSpritesWf} {Σ : Type} `{RandomSource Σ}.


End Claims.

(** The bounds of [isCollide] at a height [q]: inside exactly for a
    ground height of a player 28 to 408 pixels high. *)
Lemma ground_in_bounds `{FbSprites} y :
  (to_Q y == to_Q GROUNDY - inject_Z player_h)%Q ->
  (out_of_bounds y = false <-> 28 <= player_h <= 408).
Proof.
  intros Ey. unfold out_of_bounds.
  rewrite orb_false_iff, !py_lt_false, to_Q_sub, Ey. cbn [to_Q]. rewrite GROUNDY_val.
  assert (E : (inject_Z SCREENHEIGHT - inject_Z 130 == 381)%Q) by reflexivity. rewrite E.
  change (inject_Z 0) with 0%Q.
  assert (E27 : (inject_Z 27 == 27)%Q) by reflexivity.
  assert (E409 : (inject_Z 409 == 409)%Q) by reflexivity.
  assert (E28 : (inject_Z 28 == 28)%Q) by reflexivity.
  assert (E408 : (inject_Z 408 == 408)%Q) by reflexivity.
  split; intros [Hl1 Hl2]; split.
  - destruct (Z.le_gt_cases 28 player_h) as [| Hl]; [assumption | exfalso].
    assert (Hq : (inject_Z player_h <= inject_Z 27)%Q) by (rewrite <- Zle_Qle; lia). lra.
  - destruct (Z.le_gt_cases player_h 408) as [| Hl]; [assumption | exfalso].
    assert (Hq : (inject_Z 409 <= inject_Z player_h)%Q) by (rewrite <- Zle_Qle; lia). lra.
  - assert (Hq : (inject_Z 28 <= inject_Z player_h)%Q) by (rewrite <- Zle_Qle; lia). lra.
  - assert (Hq : (inject_Z player_h <= inject_Z 408)%Q) by (rewrite <- Zle_Qle; lia). lra.
Qed.

(** No pipe within horizontal reach and the bird inside the bounds: no
    crash. *)
Lemma out_of_reach_isCollide `{FbSprites} x y us ls :
  out_of_bounds y = false ->
  forallb (fun p => negb (Z.abs (x - px p) <? pipe_w)) us = true ->
  forallb (fun p => negb (Z.abs (x - px p) <? pipe_w)) ls = true ->
  isCollide x y us ls = inl false.
Proof.
  intros Hb Hu Hl. unfold isCollide. rewrite Hb.
  assert (Hfar : forall l f, forallb (fun p => negb (Z.abs (x - px p) <? pipe_w)) l = true ->
    existsb (fun p => f p && (Z.abs (x - px p) <? pipe_w)) l = false).
  { intros l f. induction l as [| a l IH]; [reflexivity |]. cbn.
    rewrite andb_true_iff, negb_true_iff. intros [-> Hr]. rewrite andb_false_r. exact (IH Hr). }
  unfold hits_upper, hits_lower. rewrite (Hfar us _ Hu), (Hfar ls _ Hl). reflexivity.
Qed.

Section Claims2.
Context `{FbSprites} {Σ : Type} `{RandomSource Σ}.


(** C29. The ground is no obstacle for a player image 28 to 408 pixels
    high: a frame that starts with the bird resting on the ground
    ([playery = GROUNDY - height]) with a non-negative speed and no pipe
    within its horizontal reach is no crash, and the bird is still on the
    ground after it. *)
Theorem ground_rest r p1 s ps s' :
  28 <= player_h <= 408 ->
  (to_Q (Player.playery p1) == to_Q GROUNDY - inject_Z player_h)%Q -> 0 <= Player.playerVelY p1 ->
  forallb (fun p => negb (Z.abs (Player.playerx - px p) <? pipe_w))
    (upperPipes (pipes r) ++ lowerPipes (pipes r)) = true ->
  pipes_frame (gap r) (pipes r) s = inl (ps, s') ->
  exists r' cs, play_rest r p1 s = inl (Some r', s', cs) /\
    (to_Q (Player.playery (player r')) == to_Q GROUNDY - inject_Z player_h)%Q.
Proof.
  intros Hh Ey Hv Hfar Ep. rewrite forallb_app, andb_true_iff in Hfar. destruct Hfar as [Hu Hl].
  unfold play_rest.
  rewrite (out_of_reach_isCollide _ _ _ _ (proj2 (ground_in_bounds _ Ey) Hh) Hu Hl), Ep.
  do 2 eexists. split; [reflexivity |]. cbn [player].
  rewrite Player.move_rest; [exact Ey | | ].
  - unfold Player.room. cbn [Player.gravity Player.playery]. rewrite Ey. ring.
  - unfold Player.gravity. cbn [Player.playerVelY].
    unfold Player.playerAccY. destruct (_ && _); lia.
Qed.

End Claims2.

(** ** The [TypeError] run and the witnesses *)
Section Runs.
#[local] Existing Instance sample_sprites.
#[local] Existing Instance sample_sprites_wf.

(** A flap on the welcome screen; 181 frames without input, in which the
    bird rises, falls and lands on the ground, where its height becomes
    the float [408.8 - 30]; 23 flaps, which lift it to [148.8]; one more
    frame, in which the first upper pipe (its lower end at 150 for the
    seed 150) reaches the bird. *)
Definition type_error_frames : list (list FbEvent) :=
  [[FKEYDOWN FK_SPACE]] ++ repeat [] 181 ++ repeat [FKEYDOWN FK_SPACE] 23 ++ [[]].



(** A round whose bird is below the bounds of [isCollide]. *)
Definition low_round : Round :=
  mkRound (Player.mkPlayer (PInt 390) 0 false) 0 (mkPipes [] []) 0%Q bg_init.


(** A bird resting on the ground while the two first pipes are far. *)
Definition resting_round : Round :=
  mkRound (Player.mkPlayer (PFloat (1894 # 5)) 3 false) 0
    (mkPipes [mkPipeDict 778 0; mkPipeDict 1067 0] [mkPipeDict 778 300; mkPipeDict 1067 300])
    0%Q bg_init.

Definition resting_pipes : Pipes :=
  mkPipes [mkPipeDict 775 0; mkPipeDict 1064 0] [mkPipeDict 775 300; mkPipeDict 1064 300].

Lemma ground_rest_witness :
  28 <= player_h <= 408 /\
  (to_Q (Player.playery (player resting_round)) == to_Q GROUNDY - inject_Z player_h)%Q /\
  0 <= Player.playerVelY (player resting_round) /\
  forallb (fun p => negb (Z.abs (Player.playerx - px p) <? pipe_w))
    (upperPipes (pipes resting_round) ++ lowerPipes (pipes resting_round)) = true /\
  pipes_frame (gap resting_round) (pipes resting_round) (7 : Z) = inl (resting_pipes, 7) /\
  exists r' cs, play_rest resting_round (player resting_round) (7 : Z) = inl (Some r', 7, cs) /\
    (to_Q (Player.playery (player r')) == to_Q GROUNDY - inject_Z player_h)%Q.
Proof.
  assert (Hh : 28 <= player_h <= 408) by (cbn; lia).
  assert (Ey : (to_Q (Player.playery (player resting_round)) == to_Q GROUNDY - inject_Z player_h)%Q)
    by reflexivity.
  assert (Hv : 0 <= Player.playerVelY (player resting_round)) by (cbn; lia).
  assert (Hf : forallb (fun p => negb (Z.abs (Player.playerx - px p) <? pipe_w))
    (upperPipes (pipes resting_round) ++ lowerPipes (pipes resting_round)) = true) by reflexivity.
  assert (Ep : pipes_frame (gap resting_round) (pipes resting_round) (7 : Z) = inl (resting_pipes, 7))
    by (vm_compute; reflexivity).
  split; [exact Hh |]. split; [exact Ey |]. split; [exact Hv |]. split; [exact Hf |].
  split; [exact Ep | exact (ground_rest resting_round _ 7 _ _ Hh Ey Hv Hf Ep)].
Defined.

End Runs.
