(* ===== verification/FbLiveness.v ===== *)
(** * A round of [src/unnamed/part_000] without input ends

    With the sample image sizes of [FbConfig] (a 34 x 30 player, a
    52 x 320 pipe, a 112-pixel base), a player who starts a round and then
    gives no input: the bird rises, falls and lands on the ground, where it
    rests (the ground is no crash for a 30-pixel image); the first pipe
    pair comes in 3 pixels a frame and its lower pipe reaches the bird in
    frame 204 of the round, whatever the random draws were.  The round then
    ends and the program is back on the welcome screen with one hit sound.

    The frames before the crash are described in closed form
    ([quiet_round]): the player after [t] frames of gravity, the two pairs
    [3 t] pixels to the left of where they started, [gap] and the
    background after [t] frames, no point scored.  The random draws only
    fix the heights of the two pairs, which stay symbolic. *)

From Stdlib Require Import ZArith QArith Lia Lqa.
From stdpp Require Import base list.
From S2P Require Import Prelude PyNum FbConfig Random FbPlayer FbPipes FbCollide FbScore FbBackground FbGame.
Open Scope Z_scope.

Section Quiet.
#[local] Existing Instance sample_sprites.
Context {Σ : Type} `{RandomSource Σ}.

(** The player after [t] frames without a flap. *)
Definition quiet_player (t : nat) : Player.Player :=
  Nat.iter t (fun p => Player.move (Player.gravity p)) Player.init.

(** The round after [t] quiet frames, for the heights [u1], [u2] of the
    upper pipes and [l1], [l2] of the lower ones. *)
Definition quiet_round (u1 u2 l1 l2 : Q) (t : nat) : Round :=
  let x1 := 778 - 3 * Z.of_nat t in
  mkRound (quiet_player t) 0
    (mkPipes [mkPipeDict x1 u1; mkPipeDict (x1 + 289) u2] [mkPipeDict x1 l1; mkPipeDict (x1 + 289) l2])
    (Nat.iter t gap_step 0%Q) (Nat.iter t bg_step bg_init).

(** The heights of the bird in the quiet frames stay inside the bounds of
    [isCollide]; checked frame by frame. *)
Lemma quiet_heights_table :
  forallb (fun t => negb (out_of_bounds (Player.playery (quiet_player t)))) (seq 0 205) = true.
Proof. vm_compute. reflexivity. Qed.

Lemma quiet_in_bounds t : (t <= 204)%nat -> out_of_bounds (Player.playery (quiet_player t)) = false.
Proof.
  intros Ht. pose proof quiet_heights_table as Hf. rewrite forallb_forall in Hf.
  apply negb_true_iff, Hf, in_seq. lia.
Qed.

Lemma quiet_ground : Player.playery (quiet_player 204) = PFloat (1894 # 5).
Proof. vm_compute. reflexivity. Qed.

(** A quiet frame before the pair reaches the bird. *)
Lemma quiet_frame u1 u2 l1 l2 t s cs :
  (t < 204)%nat ->
  fb_tick [] (mkFbState (FPlaying (quiet_round u1 u2 l1 l2 t)) s cs) =
  mkFbState (FPlaying (quiet_round u1 u2 l1 l2 (S t))) s cs.
Proof.
  intros Ht. unfold fb_tick, quiet_round. cbn [phase rng cues main_events player].
  unfold play_rest. cbn [player pipes gap bg score upperPipes lowerPipes].
  assert (Hx : Player.playerx = 115) by reflexivity. rewrite Hx.
  rewrite out_of_reach_isCollide; [| apply quiet_in_bounds; lia | | ];
    [| cbn; destruct (Z.ltb_spec (Z.abs (115 - (778 - 3 * Z.of_nat t))) 52),
        (Z.ltb_spec (Z.abs (115 - (778 - 3 * Z.of_nat t + 289))) 52); cbn; lia ..].
  unfold pipes_frame.
  rewrite move_pipes_map by reflexivity. unfold spawn, prune. cbn [upperPipes lowerPipes map shift px].
  unfold pipeVelX. rewrite spawn_window.
  destruct (Z.leb_spec 1 (778 - 3 * Z.of_nat t + -3)), (Z.leb_spec (778 - 3 * Z.of_nat t + -3) 3);
    [lia | | lia | lia]. cbn [andb upperPipes lowerPipes shift px]. unfold pipeVelX.
  assert (Hpw : pipe_w = 52) by reflexivity.
  match goal with |- context [Z.ltb ?a ?b] => destruct (Z.ltb_spec a b); [lia |] end.
  unfold score_frame. cbn [fold_left score]. rewrite !scores_window.
  assert (Hw : window_end 115 = 106) by reflexivity. rewrite Hw. cbn [px].
  destruct (Z.leb_spec (778 - 3 * Z.of_nat t) 106); [lia |].
  destruct (Z.leb_spec (778 - 3 * Z.of_nat t + 289) 106); [lia |].
  rewrite !andb_false_r. cbn. rewrite !app_nil_r.
  unfold quiet_player.
  unfold shift, pipeVelX. rewrite Nat2Z.inj_succ.
  replace (778 - 3 * Z.succ (Z.of_nat t)) with (778 - 3 * Z.of_nat t + -3) by lia.
  replace (778 - 3 * Z.of_nat t + -3 + 289) with (778 - 3 * Z.of_nat t + 289 + -3) by lia.
  reflexivity.
Qed.

(** The start of the round: the first pair ends at the first draw [r1]. *)
Lemma quiet_start s :
  exists u1 u2 l1 l2 r1 s1,
    fb_tick [FKEYDOWN FK_SPACE] (fb_start s) = mkFbState (FPlaying (quiet_round u1 u2 l1 l2 0)) s1 [] /\
    (u1 + 320 == inject_Z r1)%Q /\ (l1 == offset 0 + inject_Z r1)%Q /\ 0 <= r1 < 194.
Proof.
  assert (Hb : base_h <= 305) by (cbn; lia).
  destruct (getRandomPipe_ok 0 s Hb (Qle_refl 0)) as (nu1 & nl1 & s1 & E1 & _ & _).
  destruct (getRandomPipe_ok 0 s1 Hb (Qle_refl 0)) as (nu2 & nl2 & s2 & E2 & _ & _).
  destruct (getRandomPipe_inl _ _ _ _ _ E1) as (r1 & Hr1 & _ & _ & Eu1 & El1).
  exists (py nu1), (py nu2), (py nl1), (py nl2), r1, s2.
  split; [| split; [exact Eu1 | split; [exact El1 | exact Hr1]]].
  unfold fb_tick, fb_start, start_round, initial_pipes. cbn [phase rng cues welcome_events is_quit is_flap].
  rewrite E1, E2. reflexivity.
Qed.

(** The frame in which the first lower pipe reaches the resting bird. *)
Lemma quiet_crash u1 u2 l1 l2 r1 s cs :
  (u1 + 320 == inject_Z r1)%Q -> (l1 == offset 0 + inject_Z r1)%Q -> 0 <= r1 < 194 ->
  fb_tick [] (mkFbState (FPlaying (quiet_round u1 u2 l1 l2 204)) s cs) =
  mkFbState FWelcome s (cs ++ [HIT]).
Proof.
  intros Eu El Hr. unfold fb_tick, quiet_round. cbn [phase rng cues main_events player].
  unfold play_rest. cbn [player pipes upperPipes lowerPipes].
  fold (quiet_player 204). rewrite quiet_ground.
  assert (Hx : Player.playerx = 115) by reflexivity. rewrite Hx.
  assert (Hq : (inject_Z r1 <= 193)%Q) by (change 193%Q with (inject_Z 193); rewrite <- Zle_Qle; lia).
  assert (Hq0 : (0 <= inject_Z r1)%Q) by (change 0%Q with (inject_Z 0); rewrite <- Zle_Qle; lia).
  assert (Hup : py_lt (PFloat (1894 # 5)) (py_add (PInt pipe_h) (PFloat u1)) = false).
  { apply py_lt_false. rewrite to_Q_add. cbn [to_Q].
    assert (E320 : (inject_Z pipe_h == 320)%Q) by reflexivity. rewrite E320. lra. }
  assert (Hlo : py_lt (PFloat l1) (py_add (PFloat (1894 # 5)) (PInt player_h)) = true).
  { apply py_lt_spec. rewrite to_Q_add. cbn [to_Q]. rewrite El. unfold offset.
    assert (E : (inject_Z SCREENHEIGHT / 3 - 0 == 511 # 3)%Q) by reflexivity. rewrite E.
    assert (E30 : (inject_Z player_h == 30)%Q) by reflexivity. rewrite E30. lra. }
  assert (Hb : out_of_bounds (PFloat (1894 # 5)) = false)
    by (rewrite <- quiet_ground; apply quiet_in_bounds; lia).
  unfold isCollide, hits_upper, hits_lower. cbn [existsb px py].
  assert (Ha2 : (Z.abs (115 - (778 - 3 * Z.of_nat 204 + 289)) <? pipe_w) = false) by reflexivity.
  rewrite Hb, Hup, Hlo, Ha2, !andb_false_r. reflexivity.
Qed.

Lemma fb_run_quiet k (st : @FbState Σ) : fb_run (repeat [] k) st = Nat.iter k (fb_tick []) st.
Proof.
  revert st. induction k as [| k IH]; intros st; [reflexivity |].
  cbn [repeat]. unfold fb_run. cbn [fold_left]. fold (fb_run (repeat [] k) (fb_tick [] st)).
  rewrite IH. symmetry. apply iter_succ_inner.
Qed.

Lemma quiet_iter u1 u2 l1 l2 t s cs :
  (t <= 204)%nat ->
  Nat.iter t (fb_tick []) (mkFbState (FPlaying (quiet_round u1 u2 l1 l2 0)) s cs) =
  mkFbState (FPlaying (quiet_round u1 u2 l1 l2 t)) s cs.
Proof.
  induction t as [| t IH]; intros Ht; [reflexivity |].
  rewrite Nat.iter_succ, IH by lia. apply quiet_frame. lia.
Qed.

(** C32. A round without input ends, whatever the random draws: after
    the flap that starts it, the program plays the next 204 frames, frame
    [k] being the closed form [quiet_round] at [k] (the draws only fix the
    pipes' heights), and in frame 205 the first lower pipe reaches the bird
    resting on the ground; the program is back on the welcome screen, the
    only sound started being the hit. *)
Theorem quiet_round_ends (s : Σ) :
  exists u1 u2 l1 l2 s1,
    (forall k, (k <= 204)%nat ->
       fb_run ([FKEYDOWN FK_SPACE] :: repeat [] k) (fb_start s) =
       mkFbState (FPlaying (quiet_round u1 u2 l1 l2 k)) s1 []) /\
    fb_run ([FKEYDOWN FK_SPACE] :: repeat [] 205) (fb_start s) = mkFbState FWelcome s1 [HIT].
Proof.
  destruct (quiet_start s) as (u1 & u2 & l1 & l2 & r1 & s1 & E0 & Eu & El & Hr).
  assert (Econs : forall evs l (st : @FbState Σ), fb_run (evs :: l) st = fb_run l (fb_tick evs st))
    by reflexivity.
  exists u1, u2, l1, l2, s1. rewrite !Econs, E0.
  split.
  - intros k Hk. rewrite Econs, E0, fb_run_quiet, quiet_iter by exact Hk. reflexivity.
  - rewrite fb_run_quiet, Nat.iter_succ, quiet_iter by lia.
    rewrite (quiet_crash u1 u2 l1 l2 r1 s1 [] Eu El Hr). reflexivity.
Qed.

End Quiet.
